(** * A value-level model of the DNS client codec (src/dns_client.c)

    The client is written for Linux on x86-64 with GCC: the host is
    little-endian, [char] is signed and 8 bits wide, [short] is 16 bits,
    [int] is 32 bits, [size_t] is 64 bits, and bit-fields are allocated
    from the least significant bit of their storage unit.  The model
    fixes that platform.

    Memory objects the program reads from or writes into (the calloc'ed
    qname, the malloc'ed query message, the receive buffer) are lists of
    bytes, each byte a [Z] in 0..255; every access is bounds-checked and an
    access outside the object is a [Fault].  Objects the program only
    produces and hands to [printf] (the decoded question name, strtok's
    working copy of the host, the address text) are modelled by the value
    written: the model keeps whether their allocation succeeds, a NULL
    result being written through unchecked, but not their extent. *)

From Stdlib Require Import String Ascii ZArith Zbitwise List Lia Bool.
Import ListNotations.
Open Scope Z_scope.

(** ** Outcomes *)

Inductive outcome (A : Type) : Type :=
| Ok (a : A)
| Fault
| OutOfFuel.

Arguments Ok {A} a.
Arguments Fault {A}.
Arguments OutOfFuel {A}.

Definition bind {A B : Type} (m : outcome A) (k : A -> outcome B) : outcome B :=
  match m with
  | Ok a => k a
  | Fault => Fault
  | OutOfFuel => OutOfFuel
  end.

Notation "x <- m ;; k" := (bind m (fun x => k))
  (at level 61, m at next level, right associativity).

(** ** C integer conversions *)

Definition to_uchar (x : Z) : Z := x mod 256.
Definition to_ushort (x : Z) : Z := x mod 65536.
Definition to_size_t (x : Z) : Z := x mod 18446744073709551616.

Definition to_short (x : Z) : Z :=
  let r := x mod 65536 in if r <? 32768 then r else r - 65536.

(** The value of a [char] object whose representation is the byte [b]. *)
Definition char_value (b : Z) : Z := if b <? 128 then b else b - 256.

(** ** Memory objects *)

Definition len (mem : list Z) : Z := Z.of_nat (length mem).

Definition load_bytes (mem : list Z) (off n : Z) : outcome (list Z) :=
  if (0 <=? off) && (0 <=? n) && (off + n <=? len mem)
  then Ok (firstn (Z.to_nat n) (skipn (Z.to_nat off) mem))
  else Fault.

Definition load_byte (mem : list Z) (off : Z) : outcome Z :=
  bs <- load_bytes mem off 1 ;;
  match bs with
  | [b] => Ok b
  | _ => Fault
  end.

Definition store_bytes (mem : list Z) (off : Z) (bs : list Z) : outcome (list Z) :=
  if (0 <=? off) && (off + len bs <=? len mem)
  then Ok (firstn (Z.to_nat off) mem ++ bs ++ skipn (Z.to_nat (off + len bs)) mem)
  else Fault.

(** Little-endian object representations. *)
Fixpoint le_value (bs : list Z) : Z :=
  match bs with
  | [] => 0
  | b :: bs' => b + 256 * le_value bs'
  end.

Fixpoint le_bytes (n : nat) (v : Z) : list Z :=
  match n with
  | O => []
  | S n' => v mod 256 :: le_bytes n' (v / 256)
  end.

Definition load_ushort (mem : list Z) (off : Z) : outcome Z :=
  bs <- load_bytes mem off 2 ;; Ok (le_value bs).

Definition load_uint (mem : list Z) (off : Z) : outcome Z :=
  bs <- load_bytes mem off 4 ;; Ok (le_value bs).

Definition store_ushort (mem : list Z) (off : Z) (v : Z) : outcome (list Z) :=
  store_bytes mem off (le_bytes 2 v).

(** Allocation: a request is a [size_t]; one above [PTRDIFF_MAX], or above
    what the heap [uninit] can supply, returns NULL, and the program uses
    the result unchecked. *)
Definition PTRDIFF_MAX : Z := 9223372036854775807.

Definition calloc (n : Z) : outcome (list Z) :=
  if to_size_t n <=? PTRDIFF_MAX
  then Ok (repeat 0 (Z.to_nat (to_size_t n)))
  else Fault.

(** An allocation whose contents the model does not track: all that is
    kept is whether the request succeeds. *)
Definition allocate (n : Z) : outcome unit :=
  if to_size_t n <=? PTRDIFF_MAX then Ok tt else Fault.

Definition malloc (uninit : list Z) (n : Z) : outcome (list Z) :=
  if (to_size_t n <=? PTRDIFF_MAX) && (to_size_t n <=? len uninit)
  then Ok (firstn (Z.to_nat (to_size_t n)) uninit)
  else Fault.

(** ** libc *)

(** A C string is the run of bytes before the first NUL; a list stands for
    the string object followed by its terminator. *)
Fixpoint c_str (s : list Z) : list Z :=
  match s with
  | [] => []
  | c :: s' => if c =? 0 then [] else c :: c_str s'
  end.

Definition strlen (s : list Z) : Z := len (c_str s).

(** [strlen] on a pointer into a bounded object: the terminator has to be
    found before the object ends. *)
Fixpoint find_nul (s : list Z) : option nat :=
  match s with
  | [] => None
  | c :: s' => if c =? 0 then Some O else option_map S (find_nul s')
  end.

Definition strlen_at (mem : list Z) (off : Z) : outcome Z :=
  if (0 <=? off) && (off <=? len mem)
  then match find_nul (skipn (Z.to_nat off) mem) with
       | Some n => Ok (Z.of_nat n)
       | None => Fault
       end
  else Fault.

Definition mem_char (c : Z) (set : list Z) : bool := existsb (Z.eqb c) set.

Fixpoint strspn (s accept : list Z) : nat :=
  match s with
  | [] => O
  | c :: s' => if mem_char c accept then S (strspn s' accept) else O
  end.

Fixpoint strcspn (s reject : list Z) : nat :=
  match s with
  | [] => O
  | c :: s' => if mem_char c reject then O else S (strcspn s' reject)
  end.

(** [strtok]: the state is the saved rest of the string.  Leading
    delimiters are skipped, so a token is never empty. *)
Definition strtok (save delim : list Z) : option (list Z) * list Z :=
  let s := skipn (strspn save delim) save in
  match s with
  | [] => (None, [])
  | _ :: _ =>
      let n := strcspn s delim in
      (Some (firstn n s), skipn (S n) s)
  end.

(** [strcpy] into a bounded object: the string and its terminator. *)
Definition strcpy (mem : list Z) (off : Z) (src : list Z) : outcome (list Z) :=
  store_bytes mem off (c_str src ++ [0]).

(** Byte swaps of a little-endian host. *)
Definition htons (x : Z) : Z :=
  Z.lor (Z.shiftl (Z.land x 255) 8) (Z.land (Z.shiftr x 8) 255).

Definition ntohs (x : Z) : Z := htons x.

Definition ntohl (x : Z) : Z :=
  Z.lor (Z.lor (Z.shiftl (Z.land x 255) 24)
               (Z.shiftl (Z.land (Z.shiftr x 8) 255) 16))
        (Z.lor (Z.shiftl (Z.land (Z.shiftr x 16) 255) 8)
               (Z.land (Z.shiftr x 24) 255)).

Definition decimal (n : Z) : list Z :=
  (if 100 <=? n then [48 + n / 100] else []) ++
  (if 10 <=? n then [48 + (n / 10) mod 10] else []) ++
  [48 + n mod 10].

(** [inet_ntoa]: the four bytes of [s_addr] in memory order, in decimal. *)
Definition inet_ntoa (s_addr : Z) : list Z :=
  decimal (Z.land s_addr 255) ++ [46] ++
  decimal (Z.land (Z.shiftr s_addr 8) 255) ++ [46] ++
  decimal (Z.land (Z.shiftr s_addr 16) 255) ++ [46] ++
  decimal (Z.land (Z.shiftr s_addr 24) 255).

Definition bytes_of_string (s : string) : list Z :=
  map (fun a => Z.of_N (N_of_ascii a)) (list_ascii_of_string s).

(** ** Data model *)

Definition FIELD_SIZE : Z := 2.
Definition BUFFER_SIZE : Z := 2048.
Definition sizeof_dns_header : Z := 12.

(** [struct dns_header_flags]: the bit-fields in declaration order, each
    with the position of its lowest bit and its width. *)
Inductive flag_field : Type :=
| Rcode | Zres | Ra | Rd | Tc | Aa | Opcode | Qr.

Definition field_lo (f : flag_field) : Z :=
  match f with
  | Rcode => 0 | Zres => 4 | Ra => 7 | Rd => 8
  | Tc => 9 | Aa => 10 | Opcode => 11 | Qr => 15
  end.

Definition field_width (f : flag_field) : Z :=
  match f with
  | Rcode => 4 | Zres => 3 | Ra => 1 | Rd => 1
  | Tc => 1 | Aa => 1 | Opcode => 4 | Qr => 1
  end.

(** Reading and writing a bit-field through the overlay pointer. *)
Definition get_field (f : flag_field) (unit : Z) : Z :=
  Z.land (Z.shiftr unit (field_lo f)) (Z.ones (field_width f)).

Definition set_field (f : flag_field) (v unit : Z) : Z :=
  Z.lor (Z.ldiff unit (Z.shiftl (Z.ones (field_width f)) (field_lo f)))
        (Z.shiftl (Z.land v (Z.ones (field_width f))) (field_lo f)).

Record dns_header_flags : Type := mk_flags {
  rcode : Z; z : Z; ra : Z; rd : Z;
  tc : Z; aa : Z; opcode : Z; qr : Z
}.

Record dns_header : Type := mk_header {
  message_id : Z;
  flags : Z;
  qd_count : Z;
  an_count : Z;
  ns_count : Z;
  as_count : Z
}.

Record dns_question : Type := mk_question {
  qname : list Z;
  qtype : Z;
  qclass : Z
}.

Record dns_resource_record : Type := mk_record {
  offset : Z;
  type : Z;
  class : Z;
  ttl : Z;
  rd_length : Z;
  ip_addr : list Z
}.

(** The header struct as it lies in memory. *)
Definition load_header (mem : list Z) (off : Z) : outcome dns_header :=
  a <- load_ushort mem off ;;
  b <- load_ushort mem (off + 2) ;;
  c <- load_ushort mem (off + 4) ;;
  d <- load_ushort mem (off + 6) ;;
  e <- load_ushort mem (off + 8) ;;
  f <- load_ushort mem (off + 10) ;;
  Ok (mk_header a b c d e f).

Definition header_bytes (h : dns_header) : list Z :=
  le_bytes 2 (message_id h) ++ le_bytes 2 (flags h) ++
  le_bytes 2 (qd_count h) ++ le_bytes 2 (an_count h) ++
  le_bytes 2 (ns_count h) ++ le_bytes 2 (as_count h).

Definition store_header (mem : list Z) (off : Z) (h : dns_header) : outcome (list Z) :=
  store_bytes mem off (header_bytes h).

(** ** The functions of dns_client.c *)

Definition get_qname_len (host : list Z) : Z :=
  to_short (strlen host + 2).

(** The token loop of [hostname_to_qname]: [token] is the result of the
    last [strtok] call, [save] its saved position. *)
Fixpoint qname_tokens (fuel : nat) (token : option (list Z)) (save : list Z)
    (qname : list Z) (pos : Z) : outcome (list Z * Z) :=
  match token with
  | None => Ok (qname, pos)
  | Some tok =>
      match fuel with
      | O => OutOfFuel
      | S fuel' =>
          qname <- store_bytes qname pos [to_uchar (strlen tok)] ;;
          let pos := pos + 1 in
          qname <- strcpy qname pos tok ;;
          let pos := pos + strlen tok in
          let (token', save') := strtok save [46] in
          qname_tokens fuel' token' save' qname pos
      end
  end.

(** [hostname_to_qname]: [Ok None] is the NULL return. *)
Definition hostname_to_qname (host : list Z) : outcome (option (list Z)) :=
  let qname_len := get_qname_len host in
  qname <- calloc qname_len ;;
  let pos := 0 in
  let host_copy := c_str host in
  let (token, save) := strtok host_copy [46] in
  r <- qname_tokens (length host_copy) token save qname pos ;;
  let (qname, pos) := r in
  qname <- store_bytes qname pos [0] ;;
  if strlen qname + 1 <? to_size_t qname_len
  then Ok None
  else Ok (Some qname).

(** The bit-field assignments of [hydrate_dns_header], for arbitrary
    field values; the function itself assigns constants. *)
Definition set_flags (fl : dns_header_flags) (unit : Z) : Z :=
  let unit := set_field Qr (qr fl) unit in
  let unit := set_field Opcode (opcode fl) unit in
  let unit := set_field Aa (aa fl) unit in
  let unit := set_field Tc (tc fl) unit in
  let unit := set_field Rd (rd fl) unit in
  let unit := set_field Ra (ra fl) unit in
  let unit := set_field Zres (z fl) unit in
  set_field Rcode (rcode fl) unit.

(** Reading the bit-fields back, as [main] does before printing them. *)
Definition get_flags (unit : Z) : dns_header_flags :=
  {| rcode := get_field Rcode unit; z := get_field Zres unit;
     ra := get_field Ra unit; rd := get_field Rd unit;
     tc := get_field Tc unit; aa := get_field Aa unit;
     opcode := get_field Opcode unit; qr := get_field Qr unit |}.

Definition query_flags : dns_header_flags :=
  {| rcode := 0; z := 0; ra := 0; rd := 1;
     tc := 0; aa := 0; opcode := 0; qr := 0 |}.

Definition hydrate_dns_header (header : dns_header) : dns_header :=
  {| message_id := 1;
     flags := to_ushort (set_flags query_flags (flags header));
     qd_count := 1;
     an_count := 0;
     ns_count := 0;
     as_count := 0 |}.

Definition flip_dns_header (header : dns_header) : dns_header :=
  {| message_id := htons (message_id header);
     flags := htons (flags header);
     qd_count := htons (qd_count header);
     an_count := htons (an_count header);
     ns_count := htons (ns_count header);
     as_count := htons (as_count header) |}.

Definition extract_header (header : dns_header) : dns_header :=
  {| message_id := ntohs (message_id header);
     flags := ntohs (flags header);
     qd_count := ntohs (qd_count header);
     an_count := ntohs (an_count header);
     ns_count := ntohs (ns_count header);
     as_count := ntohs (as_count header) |}.

Definition hydrate_message (message qname : list Z) : outcome (list Z) :=
  header <- load_header message 0 ;;
  let header := hydrate_dns_header header in
  let header := flip_dns_header header in
  message <- store_header message 0 header ;;
  let question_start := sizeof_dns_header in
  message <- strcpy message question_start qname ;;
  let pos := question_start + strlen qname + 1 in
  message <- store_ushort message pos (htons 1) ;;
  let pos := pos + 2 in
  message <- store_ushort message pos (htons 1) ;;
  Ok message.

(** The query half of [main]: [Ok None] is the "Wrong hostname" exit;
    the result is the message handed to [sendto], all [message_len] bytes. *)
Definition message_len (qname : list Z) : Z :=
  to_short (sizeof_dns_header + strlen qname + 1 + 2 * FIELD_SIZE).

Definition build_query (uninit : list Z) (target_host : list Z) : outcome (option (list Z)) :=
  r <- hostname_to_qname target_host ;;
  match r with
  | None => Ok None
  | Some qname =>
      message <- malloc uninit (message_len qname) ;;
      message <- hydrate_message message qname ;;
      Ok (Some message)
  end.

(** The label loop of [extract_question]: [limit] is
    [start_pos + qname_len], [out] the bytes written to the name so far. *)
Fixpoint question_labels (fuel : nat) (mem : list Z) (limit section_pos : Z)
    (out : list Z) : outcome (Z * list Z) :=
  if section_pos <? limit then
    match fuel with
    | O => OutOfFuel
    | S fuel' =>
        b <- load_byte mem section_pos ;;
        let n := char_value b in
        let out := match out with [] => out | _ :: _ => out ++ [46] end in
        label <- load_bytes mem (section_pos + 1) (to_size_t n) ;;
        let out := out ++ label in
        question_labels fuel' mem limit (section_pos + n + 1) out
    end
  else Ok (section_pos, out).

Definition extract_question_fuel (fuel : nat) (mem : list Z) (start_pos : Z)
    : outcome dns_question :=
  n <- strlen_at mem start_pos ;;
  let qname_len := to_short n in
  _ <- allocate (qname_len - 1) ;;
  r <- question_labels fuel mem (start_pos + qname_len) start_pos [] ;;
  let (section_pos, out) := r in
  let pos := section_pos + 1 in
  t <- load_ushort mem pos ;;
  let pos := pos + 2 in
  c <- load_ushort mem pos ;;
  Ok {| qname := c_str out; qtype := ntohs t; qclass := ntohs c |}.

Definition extract_question (mem : list Z) (start_pos : Z) : outcome dns_question :=
  extract_question_fuel (length mem) mem start_pos.

Definition extract_resource_record (mem : list Z) (source : Z)
    : outcome dns_resource_record :=
  let pos := source in
  o <- load_ushort mem pos ;;
  let pos := pos + 2 in
  t <- load_ushort mem pos ;;
  let pos := pos + 2 in
  c <- load_ushort mem pos ;;
  let pos := pos + 2 in
  l <- load_uint mem pos ;;
  let pos := pos + 4 in
  n <- load_ushort mem pos ;;
  let pos := pos + 2 in
  addr <- load_uint mem pos ;;
  Ok {| offset := Z.land (ntohs o) 16383;
        type := ntohs t;
        class := ntohs c;
        ttl := ntohl l;
        rd_length := ntohs n;
        ip_addr := inet_ntoa addr |}.

(** The receive buffer of [main]: calloc'ed, then filled by [recvfrom]
    with at most [BUFFER_SIZE] bytes of the datagram. *)
Definition receive (datagram : list Z) : list Z :=
  let got := firstn (Z.to_nat BUFFER_SIZE) datagram in
  got ++ repeat 0 (Z.to_nat (BUFFER_SIZE - len got)).

(** The answer loop of [main], from index [i] for [n] more records. *)
Fixpoint answers (n : nat) (i : Z) (response : list Z) (question : dns_question)
    : outcome (list dns_resource_record) :=
  match n with
  | O => Ok []
  | S n' =>
      let source := sizeof_dns_header + get_qname_len (qname question)
                    + 2 * FIELD_SIZE + i * 16 in
      record <- extract_resource_record response source ;;
      rest <- answers n' (i + 1) response question ;;
      Ok (record :: rest)
  end.

(** The response half of [main]: everything it prints.  The header is
    byte-swapped in place, in the receive buffer the question and the
    records are then read from. *)
Definition parse_response (response : list Z)
    : outcome (dns_header * dns_header_flags * dns_question * list dns_resource_record) :=
  header <- load_header response 0 ;;
  let header := flip_dns_header header in
  response <- store_header response 0 header ;;
  let flags := get_flags (flags header) in
  question <- extract_question response sizeof_dns_header ;;
  records <- answers (Z.to_nat (an_count header)) 0 response question ;;
  Ok (header, flags, question, records).

(** ** Reading of the wire format that the codec is compared with *)

(** Big-endian bytes of a 16-bit value. *)
Definition be16 (v : Z) : list Z := [v / 256; v mod 256].

(** Join labels with dots, the presentation form of a name. *)
Fixpoint dotted (labels : list (list Z)) : list Z :=
  match labels with
  | [] => []
  | [l] => l
  | l :: ls => l ++ [46] ++ dotted ls
  end.

(** Length-prefixed labels, without the terminator. *)
Fixpoint wire_labels (labels : list (list Z)) : list Z :=
  match labels with
  | [] => []
  | l :: ls => (len l :: l) ++ wire_labels ls
  end.

(** Split a string at every dot, keeping empty pieces. *)
Fixpoint split_dots (s : list Z) : list (list Z) :=
  match s with
  | [] => [[]]
  | c :: s' =>
      if c =? 46 then [] :: split_dots s'
      else match split_dots s' with
           | [] => [[c]]
           | l :: ls => (c :: l) :: ls
           end
  end.

Definition label_char (c : Z) : Prop := 0 < c < 256 /\ c <> 46.

Definition valid_label (l : list Z) : Prop :=
  1 <= len l <= 63 /\ Forall label_char l.

Definition valid_name (labels : list (list Z)) : Prop :=
  labels <> [] /\ Forall valid_label labels /\ len (wire_labels labels) + 1 <= 255.

(** The header codec as the program composes it: bit-fields assigned
    through the overlay, [flip_dns_header], the struct's bytes on the wire;
    and back, as [main] reads a response header. *)
Definition encode_header (header : dns_header) (fl : dns_header_flags) : list Z :=
  let header :=
    {| message_id := message_id header;
       flags := to_ushort (set_flags fl (flags header));
       qd_count := qd_count header;
       an_count := an_count header;
       ns_count := ns_count header;
       as_count := as_count header |} in
  header_bytes (flip_dns_header header).

Definition decode_header (wire : list Z) : outcome (dns_header * dns_header_flags) :=
  header <- load_header wire 0 ;;
  let header := flip_dns_header header in
  Ok (header, get_flags (flags header)).

(** The flags word of the wire format: qr is bit 15, rcode bits 3..0. *)
Definition flags_word (fl : dns_header_flags) : Z :=
  qr fl * 32768 + opcode fl * 2048 + aa fl * 1024 + tc fl * 512 +
  rd fl * 256 + ra fl * 128 + z fl * 16 + rcode fl.

Definition flags_in_range (fl : dns_header_flags) : Prop :=
  0 <= qr fl < 2 /\ 0 <= opcode fl < 16 /\ 0 <= aa fl < 2 /\ 0 <= tc fl < 2 /\
  0 <= rd fl < 2 /\ 0 <= ra fl < 2 /\ 0 <= z fl < 8 /\ 0 <= rcode fl < 16.

Definition is_ushort (v : Z) : Prop := 0 <= v < 65536.

Definition header_in_range (h : dns_header) : Prop :=
  is_ushort (message_id h) /\ is_ushort (flags h) /\ is_ushort (qd_count h) /\
  is_ushort (an_count h) /\ is_ushort (ns_count h) /\ is_ushort (as_count h).

Definition is_byte (b : Z) : Prop := 0 <= b < 256.

(** The tokens [strtok] yields on a string: its non-empty dot-separated
    pieces. *)
Definition nonempty (l : list Z) : bool :=
  match l with
  | [] => false
  | _ :: _ => true
  end.

Definition tokens (s : list Z) : list (list Z) := filter nonempty (split_dots s).

(** What the token loop of [hostname_to_qname] writes: each token behind
    its length stored into a [char]. *)
Fixpoint written (toks : list (list Z)) : list Z :=
  match toks with
  | [] => []
  | t :: ts => (to_uchar (len t) :: t) ++ written ts
  end.

Definition nul_free (s : list Z) : Prop := Forall (fun c => c <> 0) s.

(** The size of a resource record on the wire, as the format lays it
    out: the name, then type, class, TTL and rdlength (ten bytes), then
    rdlength bytes of rdata. *)
Definition record_wire_size (name_size : Z) (r : dns_resource_record) : Z :=
  name_size + 10 + rd_length r.

(** ** Concrete messages *)

Definition example_host : list Z := bytes_of_string "example.com".

Definition response_header (answers : Z) : list Z :=
  [0; 1; 129; 128; 0; 1; 0; answers; 0; 0; 0; 0].

(** A response whose question name [3]www[7]example[3]com[0] sits at
    offset 12 and whose answer, at offset 33, names it by the pointer
    0xC0 0x0C. *)
Definition compressed_response : list Z :=
  response_header 1 ++
  [3; 119; 119; 119; 7; 101; 120; 97; 109; 112; 108; 101; 3; 99; 111; 109; 0;
   0; 1; 0; 1] ++
  [192; 12; 0; 1; 0; 1; 0; 0; 1; 44; 0; 4; 93; 184; 216; 34].

(** A response to a question for [1]a[0] with two answers: a 28-byte
    record of type 28 with 16 bytes of rdata at offset 19, then an address
    record at offset 47. *)
Definition stride_response : list Z :=
  response_header 2 ++
  [1; 97; 0; 0; 1; 0; 1] ++
  [192; 12; 0; 28; 0; 1; 0; 0; 0; 60; 0; 16;
   32; 1; 13; 184; 0; 0; 0; 0; 0; 0; 0; 0; 0; 0; 0; 1] ++
  [192; 12; 0; 1; 0; 1; 0; 0; 0; 60; 0; 4; 93; 184; 216; 34].

(** An answer whose name is the pointer 0xFF 0xFF, to offset 16383. *)
Definition far_pointer_response : list Z :=
  response_header 1 ++
  [1; 97; 0; 0; 1; 0; 1] ++
  [255; 255; 0; 1; 0; 1; 0; 0; 0; 60; 0; 4; 93; 184; 216; 34].

(** A host name that is one label of 64 bytes. *)
Definition long_label_host : list Z := repeat 97 64.

(** A question whose name starts with the length byte 64 = 01000000. *)
Definition reserved_length_response : list Z :=
  response_header 0 ++ [64] ++ repeat 97 64 ++ [0; 0; 1; 0; 1].

(** An address record that declares five bytes of rdata. *)
Definition mismatched_length_response : list Z :=
  response_header 1 ++
  [1; 97; 0; 0; 1; 0; 1] ++
  [192; 12; 0; 1; 0; 1; 0; 0; 0; 60; 0; 5; 93; 184; 216; 34; 7].

(** The twelve header bytes of every query. *)
Definition query_header_wire : list Z := [0; 1; 1; 0; 0; 1; 0; 0; 0; 0; 0; 0].

(** ** Further values the properties below speak of *)

(** What [extract_resource_record] makes of sixteen zero bytes. *)
Definition zero_record : dns_resource_record :=
  {| offset := 0; type := 0; class := 0; ttl := 0; rd_length := 0;
     ip_addr := bytes_of_string "0.0.0.0" |}.

(** The question of a message: encoded labels, terminator, type, class. *)
Definition question_wire (labels : list (list Z)) (t0 t1 c0 c1 : Z) : list Z :=
  wire_labels labels ++ [0; t0; t1; c0; c1].

(** A response with two address records, both naming the question by
    pointer. *)
Definition two_address_records : list (list Z) :=
  [[192; 12; 0; 1; 0; 1; 0; 0; 1; 44; 0; 4; 93; 184; 216; 34];
   [192; 12; 0; 1; 0; 1; 0; 0; 1; 44; 0; 4; 93; 184; 216; 35]].

(** A host name of 32766 bytes. *)
Definition overlong_host : list Z := repeat 97 (Z.to_nat 32766).

Definition two_address_response : list Z :=
  header_bytes (flip_dns_header (mk_header 1 33152 1 2 0 0)) ++
  question_wire [bytes_of_string "example"; bytes_of_string "com"] 0 1 0 1 ++
  concat two_address_records.

(** * Properties *)

(** Deciding the tests of the model from linear facts. *)
Ltac test_true :=
  symmetry; rewrite ?andb_true_iff, ?Z.leb_le, ?Z.ltb_lt;
  unfold PTRDIFF_MAX in *; lia.

Ltac test_false :=
  symmetry; rewrite ?andb_false_iff, ?Z.leb_gt, ?Z.ltb_ge; lia.

(** ** Memory objects *)

Lemma len_app (a b : list Z) : len (a ++ b) = len a + len b.
Proof. unfold len. rewrite length_app. lia. Qed.

Lemma len_cons (x : Z) (a : list Z) : len (x :: a) = 1 + len a.
Proof. unfold len. simpl length. lia. Qed.

Lemma len_nonneg (a : list Z) : 0 <= len a.
Proof. unfold len. lia. Qed.

Lemma to_nat_len (a : list Z) : Z.to_nat (len a) = length a.
Proof. unfold len. lia. Qed.

Lemma skipn_len_app (pre rest : list Z) : skipn (Z.to_nat (len pre)) (pre ++ rest) = rest.
Proof.
  rewrite to_nat_len, skipn_app, skipn_all, Nat.sub_diag. reflexivity.
Qed.

Lemma firstn_len_app (bs rest : list Z) : firstn (Z.to_nat (len bs)) (bs ++ rest) = bs.
Proof.
  rewrite to_nat_len, firstn_app, firstn_all, Nat.sub_diag, firstn_0.
  apply app_nil_r.
Qed.

Lemma load_bytes_mid (pre bs post : list Z) :
  load_bytes (pre ++ bs ++ post) (len pre) (len bs) = Ok bs.
Proof.
  unfold load_bytes.
  pose proof (len_nonneg pre). pose proof (len_nonneg bs). pose proof (len_nonneg post).
  rewrite !len_app.
  replace ((0 <=? len pre) && (0 <=? len bs) &&
           (len pre + len bs <=? len pre + (len bs + len post))) with true
    by test_true.
  now rewrite skipn_len_app, firstn_len_app.
Qed.

Lemma load_bytes_inv (mem : list Z) (off n : Z) (r : list Z) :
  load_bytes mem off n = Ok r ->
  0 <= off /\ 0 <= n /\ off + n <= len mem /\
  r = firstn (Z.to_nat n) (skipn (Z.to_nat off) mem).
Proof.
  unfold load_bytes.
  destruct ((0 <=? off) && (0 <=? n) && (off + n <=? len mem)) eqn:E; [|discriminate].
  rewrite !andb_true_iff, !Z.leb_le in E. intros [= <-]. tauto.
Qed.

Lemma load_bytes_not_out_of_fuel (mem : list Z) (off n : Z) :
  load_bytes mem off n <> OutOfFuel.
Proof. unfold load_bytes. destruct (_ && _); discriminate. Qed.

Lemma load_bytes_at (pre bs post : list Z) (off n : Z) :
  off = len pre -> n = len bs ->
  load_bytes (pre ++ bs ++ post) off n = Ok bs.
Proof. intros -> ->. apply load_bytes_mid. Qed.

Lemma load_byte_at (pre post : list Z) (b off : Z) :
  off = len pre -> load_byte (pre ++ b :: post) off = Ok b.
Proof.
  intros ->. unfold load_byte.
  now rewrite (load_bytes_at pre [b] post).
Qed.

Lemma load_ushort_at (pre post : list Z) (a b off : Z) :
  off = len pre -> load_ushort (pre ++ a :: b :: post) off = Ok (le_value [a; b]).
Proof.
  intros ->. unfold load_ushort.
  now rewrite (load_bytes_at pre [a; b] post).
Qed.

Lemma load_uint_at (pre post : list Z) (a b c d off : Z) :
  off = len pre ->
  load_uint (pre ++ a :: b :: c :: d :: post) off = Ok (le_value [a; b; c; d]).
Proof.
  intros ->. unfold load_uint.
  now rewrite (load_bytes_at pre [a; b; c; d] post).
Qed.

Lemma store_bytes_at (pre old post new : list Z) (off : Z) :
  off = len pre -> len old = len new ->
  store_bytes (pre ++ old ++ post) off new = Ok (pre ++ new ++ post).
Proof.
  intros -> Hlen. unfold store_bytes.
  pose proof (len_nonneg pre). pose proof (len_nonneg post).
  rewrite !len_app.
  replace ((0 <=? len pre) && (len pre + len new <=? len pre + (len old + len post)))
    with true by test_true.
  rewrite firstn_len_app.
  do 3 f_equal.
  rewrite <- Hlen, <- len_app, app_assoc.
  apply skipn_len_app.
Qed.

(** ** Byte order *)

Lemma land_shiftl_small (a b n : Z) :
  0 <= n -> 0 <= b < 2 ^ n -> Z.land (Z.shiftl a n) b = 0.
Proof.
  intros Hn Hb. apply Z.bits_inj'. intros i Hi.
  rewrite Z.land_spec, Z.bits_0.
  destruct (Z.ltb_spec i n).
  - now rewrite Z.shiftl_spec_low.
  - rewrite <- (Z.mod_small b (2 ^ n)) by lia.
    rewrite Z.mod_pow2_bits_high by lia. apply andb_false_r.
Qed.

Lemma lor_shiftl_small (a b n : Z) :
  0 <= n -> 0 <= b < 2 ^ n -> Z.lor (Z.shiftl a n) b = a * 2 ^ n + b.
Proof.
  intros Hn Hb.
  rewrite <- (Z.shiftl_mul_pow2 a n) by assumption.
  rewrite <- Z.add_lor_land, land_shiftl_small by assumption. lia.
Qed.

Lemma low_byte (x : Z) : Z.land x 255 = x mod 256.
Proof. change 255 with (Z.ones 8). now rewrite Z.land_ones. Qed.

Lemma htons_spec (x : Z) : htons x = (x mod 256) * 256 + (x / 256) mod 256.
Proof.
  unfold htons. rewrite !low_byte, Z.shiftr_div_pow2 by lia.
  change (2 ^ 8) with 256.
  rewrite lor_shiftl_small; change (2 ^ 8) with 256; try lia.
  apply Z.mod_pos_bound. lia.
Qed.

Lemma ntohs_le_value (a b : Z) :
  is_byte a -> is_byte b -> ntohs (le_value [a; b]) = a * 256 + b.
Proof.
  unfold is_byte, ntohs. intros Ha Hb. rewrite htons_spec. cbn [le_value].
  replace ((a + 256 * (b + 256 * 0)) mod 256) with a
    by (Z.div_mod_to_equations; lia).
  replace (((a + 256 * (b + 256 * 0)) / 256) mod 256) with b
    by (Z.div_mod_to_equations; lia).
  reflexivity.
Qed.

Lemma htons_bytes (x : Z) : is_ushort x -> le_bytes 2 (htons x) = be16 x.
Proof.
  unfold is_ushort, be16. intros Hx. rewrite htons_spec. cbn [le_bytes].
  f_equal; [|f_equal]; Z.div_mod_to_equations; lia.
Qed.

Lemma htons_involutive (x : Z) : is_ushort x -> htons (htons x) = x.
Proof.
  unfold is_ushort. intros Hx. rewrite !htons_spec.
  Z.div_mod_to_equations; lia.
Qed.

Lemma htons_range (x : Z) : is_ushort (htons x).
Proof.
  unfold is_ushort. rewrite htons_spec. Z.div_mod_to_equations; lia.
Qed.

Lemma ntohl_le_value (a b c d : Z) :
  is_byte a -> is_byte b -> is_byte c -> is_byte d ->
  ntohl (le_value [a; b; c; d]) = a * 16777216 + b * 65536 + c * 256 + d.
Proof.
  unfold is_byte. intros Ha Hb Hc Hd.
  set (x := le_value [a; b; c; d]).
  assert (Hx : x = a + 256 * b + 65536 * c + 16777216 * d)
    by (subst x; cbn [le_value]; lia).
  unfold ntohl. rewrite !low_byte, !Z.shiftr_div_pow2 by lia.
  change (2 ^ 8) with 256. change (2 ^ 16) with 65536. change (2 ^ 24) with 16777216.
  replace (x mod 256) with a by (Z.div_mod_to_equations; lia).
  replace ((x / 256) mod 256) with b by (Z.div_mod_to_equations; lia).
  replace ((x / 65536) mod 256) with c by (Z.div_mod_to_equations; lia).
  replace ((x / 16777216) mod 256) with d by (Z.div_mod_to_equations; lia).
  rewrite (lor_shiftl_small c d 8) by lia.
  rewrite (Z.shiftl_mul_pow2 b 16) by lia.
  rewrite (lor_shiftl_small a (b * 2 ^ 16) 24) by lia.
  replace (a * 2 ^ 24 + b * 2 ^ 16) with (Z.shiftl (a * 256 + b) 16)
    by (rewrite Z.shiftl_mul_pow2; lia).
  rewrite lor_shiftl_small; lia.
Qed.

Lemma load_bytes_window (pre bs post : list Z) (k off n : Z) (r : list Z) :
  k = len pre + off ->
  load_bytes bs off n = Ok r ->
  load_bytes (pre ++ bs ++ post) k n = Ok r.
Proof.
  intros -> H. unfold load_bytes in *.
  destruct ((0 <=? off) && (0 <=? n) && (off + n <=? len bs)) eqn:E; [|discriminate].
  rewrite !andb_true_iff, !Z.leb_le in E. destruct E as [[Hoff Hn] Hb].
  pose proof (len_nonneg pre). pose proof (len_nonneg post).
  rewrite !len_app.
  replace ((0 <=? len pre + off) && (0 <=? n) &&
           (len pre + off + n <=? len pre + (len bs + len post))) with true
    by test_true.
  injection H as <-. f_equal.
  replace (Z.to_nat (len pre + off)) with (Z.to_nat off + Z.to_nat (len pre))%nat
    by (unfold len; lia).
  rewrite <- skipn_skipn.
  rewrite skipn_len_app, skipn_app, firstn_app.
  replace (Z.to_nat n - length (skipn (Z.to_nat off) bs))%nat with O
    by (rewrite length_skipn; unfold len in *; lia).
  rewrite firstn_0. apply app_nil_r.
Qed.

(** ** Bit-fields *)

Lemma field_bounds (f : flag_field) :
  0 <= field_lo f /\ 0 < field_width f /\ field_lo f + field_width f <= 16.
Proof. destruct f; cbn; lia. Qed.

Lemma fields_disjoint (f g : flag_field) :
  f <> g ->
  field_lo f + field_width f <= field_lo g \/ field_lo g + field_width g <= field_lo f.
Proof. destruct f, g; cbn; intros; try congruence; lia. Qed.

Lemma testbit_set_field (f : flag_field) (v unit i : Z) :
  0 <= i ->
  Z.testbit (set_field f v unit) i =
  if (field_lo f <=? i) && (i <? field_lo f + field_width f)
  then Z.testbit v (i - field_lo f)
  else Z.testbit unit i.
Proof.
  intros Hi. pose proof (field_bounds f) as (Hlo & Hw & _).
  unfold set_field.
  rewrite Z.lor_spec, Z.ldiff_spec, !Z.shiftl_spec, Z.land_spec by assumption.
  rewrite !Z.testbit_ones by lia.
  destruct (Z.leb_spec (field_lo f) i), (Z.ltb_spec i (field_lo f + field_width f));
    cbn [andb];
    destruct (Z.leb_spec 0 (i - field_lo f)), (Z.ltb_spec (i - field_lo f) (field_width f));
    cbn [andb negb]; try lia;
    rewrite ?andb_true_r, ?andb_false_r, ?orb_false_r; try reflexivity.
Qed.

Lemma testbit_get_field (f : flag_field) (unit i : Z) :
  0 <= i ->
  Z.testbit (get_field f unit) i =
  (i <? field_width f) && Z.testbit unit (i + field_lo f).
Proof.
  intros Hi. pose proof (field_bounds f) as (Hlo & Hw & _).
  unfold get_field.
  rewrite Z.land_spec, Z.shiftr_spec, Z.testbit_ones_nonneg by lia.
  apply andb_comm.
Qed.

Lemma get_set_same (f : flag_field) (v unit : Z) :
  get_field f (set_field f v unit) = v mod 2 ^ field_width f.
Proof.
  pose proof (field_bounds f) as (Hlo & Hw & _).
  apply Z.bits_inj'. intros i Hi.
  rewrite testbit_get_field, testbit_set_field, Z.testbit_mod_pow2 by lia.
  destruct (Z.ltb_spec i (field_width f)); [|reflexivity].
  replace ((field_lo f <=? i + field_lo f) &&
           (i + field_lo f <? field_lo f + field_width f)) with true
    by test_true.
  now replace (i + field_lo f - field_lo f) with i by lia.
Qed.

Lemma get_set_other (f g : flag_field) (v unit : Z) :
  f <> g -> get_field f (set_field g v unit) = get_field f unit.
Proof.
  intros Hfg. pose proof (fields_disjoint f g Hfg).
  apply Z.bits_inj'. intros i Hi.
  rewrite !testbit_get_field, testbit_set_field by
    (pose proof (field_bounds f); lia).
  destruct (Z.ltb_spec i (field_width f)); [|reflexivity].
  replace ((field_lo g <=? i + field_lo f) &&
           (i + field_lo f <? field_lo g + field_width g)) with false;
    [reflexivity|].
  symmetry. rewrite andb_false_iff, Z.leb_gt, Z.ltb_ge. lia.
Qed.

Lemma get_field_to_ushort (f : flag_field) (unit : Z) :
  get_field f (to_ushort unit) = get_field f unit.
Proof.
  pose proof (field_bounds f) as (Hlo & Hw & Hhi).
  apply Z.bits_inj'. intros i Hi.
  rewrite !testbit_get_field by lia.
  unfold to_ushort. change 65536 with (2 ^ 16).
  rewrite Z.testbit_mod_pow2 by lia.
  destruct (Z.ltb_spec i (field_width f)); [|reflexivity].
  now replace (i + field_lo f <? 16) with true by test_true.
Qed.

Lemma get_field_arith (f : flag_field) (unit : Z) :
  get_field f unit = (unit / 2 ^ field_lo f) mod 2 ^ field_width f.
Proof.
  pose proof (field_bounds f) as (Hlo & Hw & _).
  unfold get_field. now rewrite Z.land_ones, Z.shiftr_div_pow2 by lia.
Qed.

Lemma get_flags_set_flags (fl : dns_header_flags) (unit : Z) :
  flags_in_range fl -> get_flags (to_ushort (set_flags fl unit)) = fl.
Proof.
  intros (Hqr & Hop & Haa & Htc & Hrd & Hra & Hz & Hrc).
  destruct fl as [rc zz a1 d1 t1 a2 op q1]. cbn [qr opcode aa tc rd ra z rcode] in *.
  unfold get_flags, set_flags. cbn [qr opcode aa tc rd ra z rcode].
  rewrite !get_field_to_ushort.
  repeat (rewrite ?get_set_same; rewrite ?get_set_other by discriminate).
  cbn [field_width].
  now rewrite !Z.mod_small by (cbn; lia).
Qed.

Lemma flags_word_get_flags (w : Z) : is_ushort w -> flags_word (get_flags w) = w.
Proof.
  unfold is_ushort, flags_word, get_flags. intros Hw.
  cbn [qr opcode aa tc rd ra z rcode].
  rewrite !get_field_arith. cbn [field_lo field_width].
  change (2 ^ 0) with 1. change (2 ^ 1) with 2. change (2 ^ 3) with 8.
  change (2 ^ 4) with 16. change (2 ^ 7) with 128. change (2 ^ 8) with 256.
  change (2 ^ 9) with 512. change (2 ^ 10) with 1024. change (2 ^ 11) with 2048.
  change (2 ^ 15) with 32768.
  Z.div_mod_to_equations. lia.
Qed.

Lemma to_ushort_range (x : Z) : is_ushort (to_ushort x).
Proof. unfold is_ushort, to_ushort. apply Z.mod_pos_bound. lia. Qed.

Lemma set_flags_word (fl : dns_header_flags) (unit : Z) :
  flags_in_range fl -> to_ushort (set_flags fl unit) = flags_word fl.
Proof.
  intros Hfl.
  rewrite <- (flags_word_get_flags (to_ushort (set_flags fl unit)))
    by apply to_ushort_range.
  now rewrite get_flags_set_flags.
Qed.

(** ** Header codec *)

Lemma load_header_at (pre post : list Z) (off a0 a1 b0 b1 c0 c1 d0 d1 e0 e1 f0 f1 : Z) :
  off = len pre ->
  load_header (pre ++ [a0; a1; b0; b1; c0; c1; d0; d1; e0; e1; f0; f1] ++ post) off =
  Ok (mk_header (le_value [a0; a1]) (le_value [b0; b1]) (le_value [c0; c1])
                (le_value [d0; d1]) (le_value [e0; e1]) (le_value [f0; f1])).
Proof.
  intros ->. unfold load_header, load_ushort.
  set (bs := [a0; a1; b0; b1; c0; c1; d0; d1; e0; e1; f0; f1]).
  rewrite (load_bytes_window pre bs post _ 0 2 [a0; a1]) by (reflexivity || lia).
  cbn [bind].
  rewrite (load_bytes_window pre bs post _ 2 2 [b0; b1]) by (reflexivity || lia).
  cbn [bind].
  rewrite (load_bytes_window pre bs post _ 4 2 [c0; c1]) by (reflexivity || lia).
  cbn [bind].
  rewrite (load_bytes_window pre bs post _ 6 2 [d0; d1]) by (reflexivity || lia).
  cbn [bind].
  rewrite (load_bytes_window pre bs post _ 8 2 [e0; e1]) by (reflexivity || lia).
  cbn [bind].
  rewrite (load_bytes_window pre bs post _ 10 2 [f0; f1]) by (reflexivity || lia).
  reflexivity.
Qed.

Lemma le_value_le_bytes (x : Z) : is_ushort x -> le_value (le_bytes 2 x) = x.
Proof.
  unfold is_ushort. intros Hx. cbn [le_bytes le_value].
  Z.div_mod_to_equations; lia.
Qed.

Lemma load_header_bytes (h : dns_header) (post : list Z) :
  header_in_range h -> load_header (header_bytes h ++ post) 0 = Ok h.
Proof.
  intros (Ha & Hb & Hc & Hd & He & Hf).
  unfold header_bytes. cbn [le_bytes app].
  etransitivity; [apply (load_header_at [] post 0); reflexivity|].
  destruct h as [a b c d e f].
  cbn [message_id flags qd_count an_count ns_count as_count] in *.
  change (le_value [?x mod 256; ?x / 256 mod 256]) with (le_value (le_bytes 2 x)).
  now rewrite !le_value_le_bytes.
Qed.

Lemma flip_in_range (h : dns_header) : header_in_range (flip_dns_header h).
Proof. repeat split; apply htons_range. Qed.

Lemma flip_involutive (h : dns_header) :
  header_in_range h -> flip_dns_header (flip_dns_header h) = h.
Proof.
  intros (Ha & Hb & Hc & Hd & He & Hf). destruct h as [a b c d e f].
  unfold flip_dns_header. cbn [message_id flags qd_count an_count ns_count as_count] in *.
  now rewrite !htons_involutive.
Qed.

Lemma flip_header_bytes (h : dns_header) :
  header_in_range h ->
  header_bytes (flip_dns_header h) =
  be16 (message_id h) ++ be16 (flags h) ++ be16 (qd_count h) ++
  be16 (an_count h) ++ be16 (ns_count h) ++ be16 (as_count h).
Proof.
  intros (Ha & Hb & Hc & Hd & He & Hf).
  unfold header_bytes, flip_dns_header.
  cbn [message_id flags qd_count an_count ns_count as_count].
  now rewrite !htons_bytes.
Qed.

Lemma query_flags_word (unit : Z) : to_ushort (set_flags query_flags unit) = 256.
Proof.
  rewrite set_flags_word; [reflexivity|].
  unfold flags_in_range, query_flags. cbn. lia.
Qed.

Lemma hydrate_dns_header_value (header : dns_header) :
  hydrate_dns_header header = mk_header 1 256 1 0 0 0.
Proof. unfold hydrate_dns_header. now rewrite query_flags_word. Qed.

Lemma query_header_bytes (header : dns_header) :
  header_bytes (flip_dns_header (hydrate_dns_header header)) = query_header_wire.
Proof. rewrite hydrate_dns_header_value. reflexivity. Qed.

(** C6. Header round trip: for every id, every four counts and every
    combination of the flag sub-fields (each within its width), the bytes
    written by the bit-field assignments followed by [flip_dns_header] are
    the six 16-bit fields in big-endian order, the flags word having qr as
    its most significant bit and rcode in its four least significant bits;
    and reading them back as [main] reads a response header returns the
    same id, counts and sub-fields. *)
Theorem header_round_trip (h : dns_header) (fl : dns_header_flags) (rest : list Z) :
  header_in_range h -> flags_in_range fl ->
  let h' := {| message_id := message_id h; flags := flags_word fl;
               qd_count := qd_count h; an_count := an_count h;
               ns_count := ns_count h; as_count := as_count h |} in
  encode_header h fl =
    be16 (message_id h) ++ be16 (flags_word fl) ++ be16 (qd_count h) ++
    be16 (an_count h) ++ be16 (ns_count h) ++ be16 (as_count h) /\
  decode_header (encode_header h fl ++ rest) = Ok (h', fl).
Proof.
  intros Hh Hfl h'.
  assert (Hh' : header_in_range h').
  { destruct Hh as (Ha & _ & Hc & Hd & He & Hf).
    repeat split; try (apply Ha || apply Hc || apply Hd || apply He || apply Hf);
      unfold flags_in_range, flags_word in *; cbn [flags h']; lia. }
  unfold encode_header. rewrite set_flags_word by assumption. fold h'.
  split.
  - now rewrite flip_header_bytes.
  - unfold decode_header.
    rewrite load_header_bytes by apply flip_in_range.
    cbn [bind]. rewrite flip_involutive by assumption.
    do 2 f_equal. cbn [flags h'].
    rewrite <- (set_flags_word fl 0) by assumption.
    now apply get_flags_set_flags.
Qed.

Lemma header_round_trip_witness :
  decode_header
    (encode_header (mk_header 43981 0 1 2 3 4) (mk_flags 15 7 1 1 1 1 15 1) ++ []) =
  Ok (mk_header 43981 65535 1 2 3 4, mk_flags 15 7 1 1 1 1 15 1).
Proof.
  apply (header_round_trip (mk_header 43981 0 1 2 3 4) (mk_flags 15 7 1 1 1 1 15 1) []).
  - unfold header_in_range, is_ushort. cbn. lia.
  - unfold flags_in_range. cbn. lia.
Defined.

(** ** Building the query *)

Lemma load_bytes_ok (mem : list Z) (off n : Z) :
  0 <= off -> 0 <= n -> off + n <= len mem ->
  load_bytes mem off n = Ok (firstn (Z.to_nat n) (skipn (Z.to_nat off) mem)).
Proof.
  intros. unfold load_bytes.
  now replace ((0 <=? off) && (0 <=? n) && (off + n <=? len mem)) with true
    by test_true.
Qed.

Lemma load_header_ok (mem : list Z) (off : Z) :
  0 <= off -> off + 12 <= len mem -> exists h, load_header mem off = Ok h.
Proof.
  intros. unfold load_header, load_ushort.
  rewrite !load_bytes_ok by lia. cbn [bind]. eauto.
Qed.

Lemma load_header_fault (mem : list Z) :
  len mem < 12 -> load_header mem 0 = Fault.
Proof.
  intros H. unfold load_header, load_ushort.
  repeat match goal with
         | |- context [load_bytes mem ?o 2] =>
             let E := fresh "E" in
             destruct (load_bytes mem o 2) as [?| |] eqn:E; cbn [bind];
             [|reflexivity|exfalso; exact (load_bytes_not_out_of_fuel _ _ _ E)]
         end.
  match goal with
  | E : load_bytes mem (0 + 10) 2 = Ok _ |- _ => apply load_bytes_inv in E; lia
  end.
Qed.

Lemma store_bytes_fault (mem : list Z) (off : Z) (bs : list Z) :
  len mem < off + len bs -> store_bytes mem off bs = Fault.
Proof.
  intros H. unfold store_bytes.
  now replace ((0 <=? off) && (off + len bs <=? len mem)) with false
    by test_false.
Qed.

Lemma store_bytes_len (mem : list Z) (off : Z) (bs mem' : list Z) :
  store_bytes mem off bs = Ok mem' -> len mem' = len mem.
Proof.
  unfold store_bytes.
  destruct ((0 <=? off) && (off + len bs <=? len mem)) eqn:E; [|discriminate].
  rewrite andb_true_iff, !Z.leb_le in E. intros [= <-].
  pose proof (len_nonneg bs).
  unfold len in *. rewrite !length_app, length_firstn, length_skipn. lia.
Qed.

Lemma split_at (m : list Z) (n : Z) :
  0 <= n <= len m -> exists a b, m = a ++ b /\ len a = n.
Proof.
  intros H. exists (firstn (Z.to_nat n) m), (skipn (Z.to_nat n) m). split.
  - symmetry. apply firstn_skipn.
  - unfold len in *. rewrite length_firstn. lia.
Qed.

Lemma strlen_nonneg (s : list Z) : 0 <= strlen s.
Proof. apply len_nonneg. Qed.

Lemma hydrate_message_spec (message qname : list Z) :
  17 + strlen qname <= len message ->
  hydrate_message message qname =
  Ok (query_header_wire ++ c_str qname ++ [0] ++ be16 1 ++ be16 1 ++
      skipn (Z.to_nat (17 + strlen qname)) message).
Proof.
  intros Hlen. pose proof (strlen_nonneg qname) as Hs.
  destruct (split_at message 12) as (a & m1 & -> & Ha); [lia|].
  rewrite len_app in Hlen.
  destruct (split_at m1 (strlen qname + 1)) as (b & m2 & -> & Hb); [lia|].
  rewrite len_app in Hlen.
  destruct (split_at m2 2) as (c & m3 & -> & Hc); [lia|].
  rewrite len_app in Hlen.
  destruct (split_at m3 2) as (d & e & -> & Hd); [lia|].
  replace (skipn (Z.to_nat (17 + strlen qname)) (a ++ b ++ c ++ d ++ e)) with e.
  2: { replace (a ++ b ++ c ++ d ++ e) with ((a ++ b ++ c ++ d) ++ e)
         by now rewrite <- !app_assoc.
       replace (17 + strlen qname) with (len (a ++ b ++ c ++ d))
         by (rewrite !len_app; lia).
       now rewrite skipn_len_app. }
  unfold hydrate_message.
  destruct (load_header_ok (a ++ b ++ c ++ d ++ e) 0) as (h0 & ->);
    [lia|rewrite !len_app; pose proof (len_nonneg e); lia|].
  cbn [bind]. unfold store_header. rewrite query_header_bytes.
  assert (Hw : len query_header_wire = 12) by reflexivity.
  assert (Hq : len (c_str qname) = strlen qname) by reflexivity.
  assert (H2 : len (le_bytes 2 (htons 1)) = 2) by reflexivity.
  change (a ++ b ++ c ++ d ++ e) with ([] ++ a ++ b ++ c ++ d ++ e).
  rewrite (store_bytes_at [] a _ query_header_wire) by (reflexivity || lia).
  cbn [bind]. rewrite app_nil_l.
  unfold strcpy, sizeof_dns_header.
  rewrite (store_bytes_at query_header_wire b _ (c_str qname ++ [0]))
    by (rewrite ?len_app, ?len_cons; change (len []) with 0; lia).
  cbn [bind]. unfold store_ushort.
  replace (query_header_wire ++ (c_str qname ++ [0]) ++ c ++ d ++ e)
    with ((query_header_wire ++ c_str qname ++ [0]) ++ c ++ d ++ e)
    by now rewrite <- !app_assoc.
  rewrite (store_bytes_at _ c _ (le_bytes 2 (htons 1)))
    by (rewrite ?len_app, ?len_cons; change (len []) with 0; lia).
  cbn [bind].
  replace ((query_header_wire ++ c_str qname ++ [0]) ++ le_bytes 2 (htons 1) ++ d ++ e)
    with (((query_header_wire ++ c_str qname ++ [0]) ++ le_bytes 2 (htons 1)) ++ d ++ e)
    by now rewrite <- !app_assoc.
  rewrite (store_bytes_at _ d _ (le_bytes 2 (htons 1)))
    by (rewrite ?len_app, ?len_cons; change (len []) with 0; lia).
  cbn [bind]. rewrite <- !app_assoc. reflexivity.
Qed.

Lemma store_bytes_cases (mem : list Z) (off : Z) (bs : list Z) :
  store_bytes mem off bs = Fault \/
  exists mem', store_bytes mem off bs = Ok mem' /\ len mem' = len mem.
Proof.
  destruct (store_bytes mem off bs) as [mem'| |] eqn:E.
  - right. exists mem'. split; [reflexivity|]. eapply store_bytes_len, E.
  - now left.
  - unfold store_bytes in E. destruct (_ && _); discriminate.
Qed.

Lemma hydrate_message_short (message qname : list Z) :
  len message < 17 + strlen qname -> hydrate_message message qname = Fault.
Proof.
  intros Hlen. pose proof (strlen_nonneg qname) as Hs.
  assert (Hq : len (c_str qname ++ [0]) = strlen qname + 1)
    by (rewrite len_app; reflexivity).
  unfold hydrate_message.
  destruct (Z.lt_ge_cases (len message) 12) as [H12|H12].
  { now rewrite load_header_fault. }
  destruct (load_header_ok message 0) as (h0 & ->); [lia|lia|]. cbn [bind].
  unfold store_header, strcpy, store_ushort, sizeof_dns_header.
  destruct (store_bytes_cases message 0
              (header_bytes (flip_dns_header (hydrate_dns_header h0))))
    as [->|(m1 & -> & H1)]; [reflexivity|]. cbn [bind].
  destruct (store_bytes_cases m1 12 (c_str qname ++ [0]))
    as [->|(m2 & -> & H2)]; [reflexivity|]. cbn [bind].
  destruct (store_bytes_cases m2 (12 + strlen qname + 1) (le_bytes 2 (htons 1)))
    as [->|(m3 & -> & H3)]; [reflexivity|]. cbn [bind].
  rewrite store_bytes_fault; [reflexivity|].
  change (len (le_bytes 2 (htons 1))) with 2. lia.
Qed.

Lemma alloc_size (x : Z) :
  0 <= x -> to_size_t (to_short x) <= PTRDIFF_MAX -> to_size_t (to_short x) <= x.
Proof.
  unfold to_size_t, to_short, PTRDIFF_MAX. cbv zeta. intros Hx.
  pose proof (Z.mod_pos_bound x 65536 ltac:(lia)) as Hr.
  destruct (Z.ltb_spec (x mod 65536) 32768); intros Hp.
  - rewrite Z.mod_small by lia. apply Z.mod_le; lia.
  - exfalso. revert Hp.
    rewrite <- (Z.mod_unique (x mod 65536 - 65536) 18446744073709551616 (-1)
                  (x mod 65536 - 65536 + 18446744073709551616)); lia.
Qed.

Lemma malloc_len (uninit : list Z) (n : Z) (obj : list Z) :
  malloc uninit n = Ok obj -> len obj = to_size_t n /\ to_size_t n <= PTRDIFF_MAX.
Proof.
  unfold malloc.
  destruct ((to_size_t n <=? PTRDIFF_MAX) && (to_size_t n <=? len uninit)) eqn:E;
    [|discriminate].
  rewrite andb_true_iff, !Z.leb_le in E. intros [= <-]. split; [|tauto].
  assert (0 <= to_size_t n) by (unfold to_size_t; apply Z.mod_pos_bound; lia).
  unfold len in *. rewrite length_firstn. lia.
Qed.

Lemma Ok_Some_inj {A : Type} (a b : A) : Ok (Some a) = Ok (Some b) -> a = b.
Proof. congruence. Qed.

Lemma build_query_some (uninit target_host message : list Z) :
  build_query uninit target_host = Ok (Some message) ->
  exists qname,
    hostname_to_qname target_host = Ok (Some qname) /\
    message = query_header_wire ++ c_str qname ++ [0] ++ be16 1 ++ be16 1.
Proof.
  unfold build_query.
  destruct (hostname_to_qname target_host) as [[qname|]| |]; cbn [bind]; try discriminate.
  destruct (malloc uninit (message_len qname)) as [m| |] eqn:Em; cbn [bind];
    try discriminate.
  apply malloc_len in Em. destruct Em as [Hm Hp].
  pose proof (strlen_nonneg qname) as Hs.
  unfold message_len, sizeof_dns_header, FIELD_SIZE in Hm, Hp.
  pose proof (alloc_size (12 + strlen qname + 1 + 2 * 2) ltac:(lia) Hp) as Hle.
  destruct (Z.lt_ge_cases (len m) (17 + strlen qname)) as [Hlt|Hge].
  { rewrite hydrate_message_short by assumption. discriminate. }
  rewrite hydrate_message_spec by assumption. cbn [bind].
  intros H. apply Ok_Some_inj in H. subst message.
  exists qname. split; [reflexivity|].
  rewrite skipn_all2 by (unfold len in *; lia).
  now rewrite app_nil_r.
Qed.

Lemma decode_query_header (rest : list Z) :
  decode_header (query_header_wire ++ rest) =
  Ok (mk_header 1 256 1 0 0 0, query_flags).
Proof.
  unfold decode_header.
  change (query_header_wire ++ rest)
    with ([] ++ [0; 1; 1; 0; 0; 1; 0; 0; 0; 0; 0; 0] ++ rest).
  rewrite load_header_at by reflexivity. reflexivity.
Qed.

(** C10. Every query the client builds carries transaction identifier 1:
    [hydrate_dns_header] overwrites [message_id] with 1 whatever the header
    held before, and in every message [main] builds, for any target host
    and any prior contents of the allocated memory, the first two bytes
    are the big-endian encoding of 1 and the header reads back with id 1. *)
Theorem query_message_id_is_1 :
  (forall header, message_id (hydrate_dns_header header) = 1) /\
  (forall uninit target_host message,
     build_query uninit target_host = Ok (Some message) ->
     firstn 2 message = be16 1 /\
     exists h fl, decode_header message = Ok (h, fl) /\ message_id h = 1).
Proof.
  split; [reflexivity|].
  intros uninit target_host message H.
  apply build_query_some in H. destruct H as (qname & _ & ->).
  split; [reflexivity|].
  rewrite decode_query_header. eexists _, _. split; reflexivity.
Qed.

Lemma query_message_id_is_1_witness :
  firstn 2 (query_header_wire ++ wire_labels [bytes_of_string "example"; bytes_of_string "com"]
            ++ [0] ++ be16 1 ++ be16 1) = be16 1 /\
  exists h fl,
    decode_header (query_header_wire ++
                   wire_labels [bytes_of_string "example"; bytes_of_string "com"]
                   ++ [0] ++ be16 1 ++ be16 1) = Ok (h, fl) /\
    message_id h = 1.
Proof.
  apply (proj2 query_message_id_is_1 (repeat 0 29) example_host).
  reflexivity.
Defined.

(** ** Encoding a name *)

Lemma c_str_nul_free (s : list Z) : nul_free s -> c_str s = s.
Proof.
  induction 1 as [|c s Hc _ IH]; [reflexivity|].
  cbn [c_str]. destruct (Z.eqb_spec c 0); [contradiction|]. now rewrite IH.
Qed.

Lemma c_str_is_nul_free (s : list Z) : nul_free (c_str s).
Proof.
  induction s as [|c s IH]; [constructor|].
  cbn [c_str]. destruct (Z.eqb_spec c 0); now constructor.
Qed.

Lemma c_str_app_nul (s rest : list Z) : nul_free s -> c_str (s ++ 0 :: rest) = s.
Proof.
  induction 1 as [|c s Hc _ IH]; [reflexivity|].
  cbn [c_str app]. destruct (Z.eqb_spec c 0); [contradiction|]. now rewrite IH.
Qed.

Lemma c_str_length (s : list Z) : (length (c_str s) <= length s)%nat.
Proof.
  induction s as [|c s IH]; [reflexivity|].
  cbn [c_str]. destruct (c =? 0); cbn [length]; lia.
Qed.

Lemma c_str_app_le (s rest : list Z) :
  (length (c_str (s ++ 0%Z :: rest)) <= length s)%nat.
Proof.
  induction s as [|c s IH]; [cbn; lia|].
  cbn [c_str app]. destruct (c =? 0); cbn [length]; lia.
Qed.

Lemma mem_char_dot (c : Z) : mem_char c [46] = (c =? 46).
Proof. unfold mem_char. cbn [existsb]. apply orb_false_r. Qed.

Lemma skipn_S (n : nat) (s : list Z) :
  skipn (S n) s = match skipn n s with [] => [] | _ :: r => r end.
Proof.
  revert s. induction n as [|n IH]; intros [|c s]; try reflexivity.
  rewrite skipn_cons, IH. reflexivity.
Qed.

Lemma split_dots_head (s : list Z) :
  split_dots s =
  firstn (strcspn s [46]) s ::
  match skipn (strcspn s [46]) s with
  | [] => []
  | _ :: r => split_dots r
  end.
Proof.
  induction s as [|c s IH]; [reflexivity|].
  cbn [split_dots strcspn]. rewrite mem_char_dot.
  destruct (c =? 46); [reflexivity|].
  rewrite IH. reflexivity.
Qed.

Lemma tokens_dot (s : list Z) : tokens (46 :: s) = tokens s.
Proof. reflexivity. Qed.

Lemma strtok_dot (s : list Z) : strtok (46 :: s) [46] = strtok s [46].
Proof. reflexivity. Qed.

Lemma strtok_spec (s : list Z) :
  match strtok s [46] with
  | (None, _) => tokens s = []
  | (Some t, save) => tokens s = t :: tokens save
  end.
Proof.
  induction s as [|c s IH]; [reflexivity|].
  destruct (Z.eqb_spec c 46) as [->|Hc].
  { now rewrite strtok_dot, tokens_dot. }
  unfold strtok. cbn [strspn]. rewrite mem_char_dot.
  destruct (Z.eqb_spec c 46) as [|_]; [contradiction|].
  cbn [skipn strcspn]. rewrite mem_char_dot.
  destruct (Z.eqb_spec c 46) as [|_]; [contradiction|].
  rewrite firstn_cons.
  unfold tokens at 1. rewrite split_dots_head.
  cbn [strcspn]. rewrite mem_char_dot.
  destruct (Z.eqb_spec c 46) as [|_]; [contradiction|].
  rewrite firstn_cons, skipn_cons. cbn [filter nonempty]. f_equal.
  rewrite skipn_S. now destruct (skipn (strcspn s [46]) s).
Qed.

Lemma split_dots_chars (s : list Z) :
  forall p, In p (split_dots s) -> forall c, In c p -> In c s.
Proof.
  induction s as [|c s IH]; intros p Hp x Hx.
  - cbn in Hp. destruct Hp as [<-|[]]. destruct Hx.
  - cbn [split_dots] in Hp. destruct (c =? 46).
    + destruct Hp as [<-|Hp]; [destruct Hx|]. right. eauto.
    + destruct (split_dots s) as [|l ls] eqn:E.
      * destruct Hp as [<-|[]]. destruct Hx as [->|[]]. now left.
      * destruct Hp as [<-|Hp].
        -- destruct Hx as [->|Hx]; [now left|]. right. eapply IH; [now left|exact Hx].
        -- right. eapply IH; [right; exact Hp|exact Hx].
Qed.

Lemma tokens_nul_free (s : list Z) : nul_free s -> Forall nul_free (tokens s).
Proof.
  intros Hs. apply Forall_forall. intros t Ht.
  apply filter_In in Ht. destruct Ht as [Ht _].
  apply Forall_forall. intros c Hc.
  eapply (proj1 (Forall_forall _ _) Hs), split_dots_chars; eassumption.
Qed.

Lemma tokens_nonempty (s : list Z) : Forall (fun t => t <> []) (tokens s).
Proof.
  apply Forall_forall. intros t Ht.
  apply filter_In in Ht. destruct Ht as [_ Ht]. now destruct t.
Qed.

Lemma written_cons (t : list Z) (ts : list (list Z)) :
  written (t :: ts) = (to_uchar (len t) :: t) ++ written ts.
Proof. reflexivity. Qed.

Lemma zeros_split (a b : nat) : repeat 0 (a + b) = repeat 0 a ++ repeat 0 b.
Proof. apply repeat_app. Qed.

Lemma zeros_3 (a b : nat) :
  repeat 0 (1 + (a + b)) = [0] ++ repeat 0 a ++ repeat 0 b.
Proof. rewrite (zeros_split 1), (zeros_split a). reflexivity. Qed.

Lemma qname_tokens_done (fuel : nat) (save qname : list Z) (pos : Z) :
  qname_tokens fuel None save qname pos = Ok (qname, pos).
Proof. now destruct fuel. Qed.

Lemma qname_tokens_spec (ts : list (list Z)) :
  forall save t fuel done extra,
    tokens save = ts -> (length ts < fuel)%nat ->
    nul_free t -> Forall nul_free ts ->
    qname_tokens fuel (Some t) save
      (done ++ repeat 0 (length (written (t :: ts)) + 1 + extra)) (len done) =
    Ok (done ++ written (t :: ts) ++ repeat 0 (1 + extra),
        len done + len (written (t :: ts))).
Proof.
  induction ts as [|t' ts IH]; intros save t fuel done extra Hts Hfuel Ht Hnf;
    (destruct fuel as [|fuel]; [cbn in Hfuel; lia|]);
    cbn [qname_tokens]; unfold strcpy, strlen; rewrite (c_str_nul_free t Ht);
    rewrite written_cons;
    set (x := to_uchar (len t));
    set (w := written _).
  - subst w. cbn [written]. rewrite app_nil_r.
    replace (length (x :: t) + 1 + extra)%nat
      with (1 + ((length t + 1) + extra))%nat by (cbn [length]; lia).
    rewrite zeros_3.
    rewrite (store_bytes_at done [0] _ [x]) by reflexivity.
    cbn [bind].
    rewrite (app_assoc done [x]).
    rewrite (store_bytes_at (done ++ [x]) _ _ (t ++ [0]))
      by (rewrite ?len_app; unfold len; rewrite ?repeat_length, ?length_app;
          cbn [length]; lia).
    cbn [bind].
    pose proof (strtok_spec save) as Hs.
    destruct (strtok save [46]) as [[t'|] save'].
    { rewrite Hts in Hs. discriminate. }
    rewrite qname_tokens_done. f_equal. f_equal.
    + rewrite <- !app_assoc. reflexivity.
    + rewrite len_cons. lia.
  - replace (length ((x :: t) ++ w) + 1 + extra)%nat
      with (1 + ((length t + 1) + (length w + extra)))%nat
      by (rewrite length_app; cbn [length]; lia).
    rewrite zeros_3.
    rewrite (store_bytes_at done [0] _ [x]) by reflexivity.
    cbn [bind].
    rewrite (app_assoc done [x]).
    rewrite (store_bytes_at (done ++ [x]) _ _ (t ++ [0]))
      by (rewrite ?len_app; unfold len; rewrite ?repeat_length, ?length_app;
          cbn [length]; lia).
    cbn [bind].
    pose proof (strtok_spec save) as Hs.
    destruct (strtok save [46]) as [[t''|] save'].
    2: { rewrite Hts in Hs. discriminate. }
    rewrite Hts in Hs. injection Hs as <- Hs.
    inversion Hnf as [|? ? Ht' Hnf']; subst.
    replace ((done ++ [x]) ++ (t ++ [0]) ++ repeat 0 (length w + extra))
      with ((done ++ x :: t) ++ repeat 0 (length w + 1 + extra)).
    2: { replace (length w + 1 + extra)%nat with (1 + (length w + extra))%nat by lia.
         rewrite zeros_split, <- !app_assoc. reflexivity. }
    replace (len done + 1 + len t) with (len (done ++ x :: t))
      by (rewrite len_app, len_cons; lia).
    subst w. rewrite (IH save' t' fuel (done ++ x :: t) extra);
      try assumption; try reflexivity; [|cbn in Hfuel; lia].
    f_equal. f_equal.
    + rewrite <- !app_assoc. reflexivity.
    + rewrite !len_app, !len_cons. lia.
Qed.

Lemma written_split_dots_len (s : list Z) : len (written (split_dots s)) = len s + 1.
Proof.
  induction s as [|c s IH]; [reflexivity|].
  cbn [split_dots]. destruct (c =? 46).
  - rewrite written_cons, len_app, !len_cons, IH. change (len []) with 0. lia.
  - pose proof (len_nonneg s).
    destruct (split_dots s) as [|l ls].
    + change (len (written [])) with 0 in IH. lia.
    + rewrite written_cons, len_app, !len_cons in *. lia.
Qed.

Lemma written_filter_le (ps : list (list Z)) :
  len (written (filter nonempty ps)) <= len (written ps).
Proof.
  induction ps as [|p ps IH]; [reflexivity|].
  pose proof (len_nonneg p).
  cbn [filter]. destruct (nonempty p);
    rewrite ?written_cons, ?len_app, ?len_cons; lia.
Qed.

Lemma written_filter_lt (ps : list (list Z)) :
  In [] ps -> len (written (filter nonempty ps)) < len (written ps).
Proof.
  induction ps as [|p ps IH]; intros Hin; [destruct Hin|].
  pose proof (len_nonneg p). pose proof (written_filter_le ps).
  destruct Hin as [->|Hin].
  - cbn [filter nonempty]. rewrite written_cons, len_app, len_cons. lia.
  - specialize (IH Hin). cbn [filter]. destruct (nonempty p);
      rewrite ?written_cons, ?len_app, ?len_cons; lia.
Qed.

Lemma filter_nonempty_id (ps : list (list Z)) :
  ~ In [] ps -> filter nonempty ps = ps.
Proof.
  induction ps as [|p ps IH]; intros Hin; [reflexivity|].
  cbn [filter]. destruct p as [|c p]; [exfalso; apply Hin; now left|].
  cbn [nonempty]. f_equal. apply IH. intros H. apply Hin. now right.
Qed.

Lemma written_tokens_len (s : list Z) : len (written (tokens s)) <= len s + 1.
Proof.
  rewrite <- written_split_dots_len. apply written_filter_le.
Qed.

Lemma written_nonempty_len (ts : list (list Z)) :
  Forall (fun t => t <> []) ts -> 2 * Z.of_nat (length ts) <= len (written ts).
Proof.
  induction 1 as [|t ts Ht _ IH]; [reflexivity|].
  rewrite written_cons, len_app, len_cons. cbn [length].
  destruct t as [|c t]; [contradiction|].
  rewrite len_cons. pose proof (len_nonneg t). lia.
Qed.

Lemma tokens_count (s : list Z) : (length (tokens s) <= length s)%nat.
Proof.
  pose proof (written_nonempty_len (tokens s) (tokens_nonempty s)).
  pose proof (written_tokens_len s). unfold len in *. lia.
Qed.

Lemma to_short_small (x : Z) : -32768 <= x <= 32767 -> to_short x = x.
Proof.
  intros H. unfold to_short. cbv zeta.
  destruct (Z.ltb_spec (x mod 65536) 32768); Z.div_mod_to_equations; lia.
Qed.

Lemma to_size_t_small (x : Z) : 0 <= x <= 32767 -> to_size_t x = x.
Proof. intros H. unfold to_size_t. apply Z.mod_small. lia. Qed.

Lemma hostname_to_qname_spec (host : list Z) :
  strlen host + 2 <= 32767 ->
  let W := written (tokens (c_str host)) in
  let qname := W ++ repeat 0 (Z.to_nat (strlen host + 2 - len W)) in
  hostname_to_qname host =
  Ok (if strlen qname + 1 <? strlen host + 2 then None else Some qname).
Proof.
  intros Hs W qname. pose proof (strlen_nonneg host) as H0.
  pose proof (written_tokens_len (c_str host)) as HW. fold W in HW.
  fold (strlen host) in HW. pose proof (len_nonneg W) as HW0.
  unfold hostname_to_qname, get_qname_len.
  rewrite to_short_small by lia.
  unfold calloc. rewrite to_size_t_small by lia.
  replace (strlen host + 2 <=? PTRDIFF_MAX) with true
    by test_true.
  cbn [bind].
  set (extra := Z.to_nat (strlen host + 1 - len W)).
  assert (Hq : qname = W ++ [0] ++ repeat 0 extra).
  { subst qname extra.
    replace (Z.to_nat (strlen host + 2 - len W))
      with (1 + Z.to_nat (strlen host + 1 - len W))%nat by lia.
    reflexivity. }
  assert (Hst : store_bytes qname (len W) [0] = Ok qname).
  { rewrite Hq. now rewrite (store_bytes_at W [0] _ [0]). }
  pose proof (strtok_spec (c_str host)) as Htok.
  pose proof (tokens_count (c_str host)) as Hcount.
  destruct (strtok (c_str host) [46]) as [[t|] save].
  - assert (HWt : W = written (t :: tokens save)) by (subst W; now rewrite Htok).
    replace (repeat 0 (Z.to_nat (strlen host + 2)))
      with ([] ++ repeat 0 (length (written (t :: tokens save)) + 1 + extra))
      by (cbn [app]; f_equal; rewrite <- HWt; subst extra; unfold len in *; lia).
    pose proof (tokens_nul_free (c_str host) (c_str_is_nul_free host)) as Hnf.
    rewrite Htok in Hnf. inversion Hnf as [|? ? Ht Hnf']; subst.
    rewrite (qname_tokens_spec (tokens save) save t _ [] extra);
      try assumption; try reflexivity.
    2: { rewrite Htok in Hcount. cbn [length] in Hcount. lia. }
    cbn [bind app]. rewrite <- HWt. change (len []) with 0. rewrite Z.add_0_l.
    change (W ++ repeat 0 (1 + extra)) with (W ++ [0] ++ repeat 0 extra).
    rewrite <- Hq, Hst. cbn [bind].
    now destruct (strlen qname + 1 <? strlen host + 2).
  - rewrite qname_tokens_done. cbn [bind].
    assert (HW' : W = []) by (subst W; now rewrite Htok).
    replace (repeat 0 (Z.to_nat (strlen host + 2))) with qname.
    2: { subst qname. rewrite HW'. now change (len []) with 0; rewrite Z.sub_0_r. }
    rewrite HW' in Hst. change (len []) with 0 in Hst. rewrite Hst.
    cbn [bind]. now destruct (strlen qname + 1 <? strlen host + 2).
Qed.

Lemma split_dots_nodot (l : list Z) :
  Forall (fun c => c <> 46) l -> split_dots l = [l].
Proof.
  induction 1 as [|c l Hc _ IH]; [reflexivity|].
  cbn [split_dots]. destruct (Z.eqb_spec c 46); [contradiction|]. now rewrite IH.
Qed.

Lemma split_dots_app_dot (l rest : list Z) :
  Forall (fun c => c <> 46) l -> split_dots (l ++ 46 :: rest) = l :: split_dots rest.
Proof.
  induction 1 as [|c l Hc _ IH]; [reflexivity|].
  cbn [split_dots app]. destruct (Z.eqb_spec c 46); [contradiction|]. now rewrite IH.
Qed.

Lemma label_chars_nodot (l : list Z) :
  Forall label_char l -> Forall (fun c => c <> 46) l.
Proof. apply Forall_impl. now intros c [_ H]. Qed.

Lemma label_chars_nul_free (l : list Z) : Forall label_char l -> nul_free l.
Proof. apply Forall_impl. intros c [H _]. lia. Qed.

Lemma split_dots_dotted (labels : list (list Z)) :
  labels <> [] -> Forall (Forall label_char) labels ->
  split_dots (dotted labels) = labels.
Proof.
  intros Hne H. induction H as [|l ls Hl Hls IH]; [contradiction|].
  destruct ls as [|l' ls].
  - cbn [dotted]. now apply split_dots_nodot, label_chars_nodot.
  - change (dotted (l :: l' :: ls)) with (l ++ 46 :: dotted (l' :: ls)).
    rewrite split_dots_app_dot by now apply label_chars_nodot.
    rewrite IH; [reflexivity|discriminate].
Qed.

Lemma dotted_nul_free (labels : list (list Z)) :
  Forall (Forall label_char) labels -> nul_free (dotted labels).
Proof.
  induction 1 as [|l ls Hl Hls IH]; [constructor|].
  destruct ls as [|l' ls].
  - now apply label_chars_nul_free.
  - change (dotted (l :: l' :: ls)) with (l ++ 46 :: dotted (l' :: ls)).
    apply Forall_app. split; [now apply label_chars_nul_free|].
    constructor; [discriminate|exact IH].
Qed.

Lemma written_wire_labels (labels : list (list Z)) :
  Forall (fun l => len l < 256) labels -> written labels = wire_labels labels.
Proof.
  induction 1 as [|l ls Hl _ IH]; [reflexivity|].
  cbn [written wire_labels]. rewrite IH. unfold to_uchar.
  rewrite Z.mod_small; [reflexivity|]. pose proof (len_nonneg l). lia.
Qed.

Lemma wire_labels_nul_free (labels : list (list Z)) :
  Forall (fun l => 1 <= len l /\ Forall label_char l) labels ->
  nul_free (wire_labels labels).
Proof.
  induction 1 as [|l ls [Hl Hc] _ IH]; [constructor|].
  cbn [wire_labels]. apply Forall_app. split; [|exact IH].
  constructor; [lia|now apply label_chars_nul_free].
Qed.

Lemma Forall_weaken {A : Type} (P Q : A -> Prop) (l : list A) :
  (forall a, P a -> Q a) -> Forall P l -> Forall Q l.
Proof. intros H. apply Forall_impl. exact H. Qed.

Lemma hostname_to_qname_labels (labels : list (list Z)) :
  labels <> [] ->
  Forall (fun l => 1 <= len l <= 255 /\ Forall label_char l) labels ->
  len (wire_labels labels) + 1 <= 32767 ->
  hostname_to_qname (dotted labels) = Ok (Some (wire_labels labels ++ [0])).
Proof.
  intros Hne Hl Hlen.
  assert (Hc : Forall (Forall label_char) labels)
    by (revert Hl; apply Forall_weaken; tauto).
  assert (Hnf : nul_free (wire_labels labels))
    by (apply wire_labels_nul_free; revert Hl; apply Forall_weaken;
        intros l [H1 H2]; split; [lia|exact H2]).
  assert (Hnot : ~ In [] labels).
  { intros Hin. apply (proj1 (Forall_forall _ _) Hl) in Hin.
    change (len []) with 0 in Hin. lia. }
  assert (Htok : tokens (c_str (dotted labels)) = labels).
  { rewrite c_str_nul_free by now apply dotted_nul_free.
    unfold tokens. rewrite split_dots_dotted by assumption.
    now apply filter_nonempty_id. }
  assert (Hw : written labels = wire_labels labels)
    by (apply written_wire_labels; revert Hl; apply Forall_weaken;
        intros l [H1 H2]; lia).
  assert (Hs : strlen (dotted labels) + 1 = len (wire_labels labels)).
  { unfold strlen. rewrite c_str_nul_free by now apply dotted_nul_free.
    rewrite <- written_split_dots_len, split_dots_dotted by assumption.
    now rewrite Hw. }
  rewrite hostname_to_qname_spec by lia. rewrite Htok, Hw.
  replace (strlen (dotted labels) + 2 - len (wire_labels labels)) with 1 by lia.
  change (repeat 0 (Z.to_nat 1)) with [0].
  unfold strlen at 1. rewrite c_str_app_nul by assumption.
  now replace (len (wire_labels labels) + 1 <? strlen (dotted labels) + 2)
    with false by test_false.
Qed.

Lemma hostname_to_qname_empty_label (host : list Z) :
  strlen host + 2 <= 32767 -> In [] (split_dots (c_str host)) ->
  hostname_to_qname host = Ok None.
Proof.
  intros Hs Hin. rewrite hostname_to_qname_spec by assumption.
  set (W := written (tokens (c_str host))).
  assert (HW : len W < strlen host + 1).
  { unfold strlen. rewrite <- written_split_dots_len.
    now apply written_filter_lt. }
  pose proof (len_nonneg W).
  replace (Z.to_nat (strlen host + 2 - len W))
    with (S (Z.to_nat (strlen host + 1 - len W))) by lia.
  cbn [repeat].
  pose proof (c_str_app_le W (repeat 0 (Z.to_nat (strlen host + 1 - len W)))) as Hle.
  set (q := W ++ 0 :: _) in *.
  now replace (strlen q + 1 <? strlen host + 2) with true
    by (symmetry; apply Z.ltb_lt; unfold strlen, len in *; lia).
Qed.

(** ** Decoding a question *)

Lemma question_labels_exit (fuel : nat) (mem : list Z) (limit section_pos : Z)
    (out : list Z) :
  limit <= section_pos ->
  question_labels fuel mem limit section_pos out = Ok (section_pos, out).
Proof.
  intros H. destruct fuel; cbn [question_labels];
    now replace (section_pos <? limit) with false by test_false.
Qed.

Lemma question_labels_step (fuel : nat) (mem : list Z) (limit section_pos : Z)
    (out : list Z) :
  section_pos < limit ->
  question_labels (S fuel) mem limit section_pos out =
  (b <- load_byte mem section_pos ;;
   let n := char_value b in
   let out := match out with [] => out | _ :: _ => out ++ [46] end in
   label <- load_bytes mem (section_pos + 1) (to_size_t n) ;;
   let out := out ++ label in
   question_labels fuel mem limit (section_pos + n + 1) out).
Proof.
  intros H. cbn [question_labels].
  now replace (section_pos <? limit) with true by test_true.
Qed.

Lemma char_value_small (b : Z) : 0 <= b <= 127 -> char_value b = b.
Proof.
  intros H. unfold char_value.
  now replace (b <? 128) with true by test_true.
Qed.

(** One trip round the loop over a well-formed label. *)
Lemma question_labels_label (fuel : nat) (pre l post : list Z) (limit : Z)
    (out : list Z) :
  len l <= 127 -> len pre < limit ->
  question_labels (S fuel) (pre ++ (len l :: l) ++ post) limit (len pre) out =
  question_labels fuel ((pre ++ len l :: l) ++ post) limit (len (pre ++ len l :: l))
    (match out with [] => out | _ :: _ => out ++ [46] end ++ l).
Proof.
  intros Hl Hlim. pose proof (len_nonneg l).
  rewrite question_labels_step by assumption.
  cbn [app]. rewrite (load_byte_at pre _ (len l)) by reflexivity.
  cbn [bind]. rewrite char_value_small by lia.
  rewrite to_size_t_small by lia.
  replace (pre ++ len l :: l ++ post) with ((pre ++ [len l]) ++ l ++ post)
    by now rewrite <- app_assoc.
  rewrite (load_bytes_at (pre ++ [len l]) l post)
    by (rewrite ?len_app; reflexivity).
  cbn [bind]. rewrite <- !app_assoc. cbn [app].
  now replace (len pre + len l + 1) with (len (pre ++ len l :: l))
    by (rewrite len_app, len_cons; lia).
Qed.

Lemma question_labels_spec (labels : list (list Z)) :
  forall fuel pre post out,
    out <> [] ->
    Forall (fun l => len l <= 127) labels ->
    (length labels <= fuel)%nat ->
    question_labels fuel (pre ++ wire_labels labels ++ post)
      (len pre + len (wire_labels labels)) (len pre) out =
    Ok (len pre + len (wire_labels labels), out ++ concat (map (cons 46) labels)).
Proof.
  induction labels as [|l ls IH]; intros fuel pre post out Hout Hl Hfuel.
  - cbn [wire_labels map concat]. change (len []) with 0.
    rewrite question_labels_exit by lia. now rewrite Z.add_0_r, app_nil_r.
  - destruct fuel as [|fuel]; [cbn in Hfuel; lia|].
    inversion Hl as [|? ? Hl1 Hl2]; subst.
    cbn [wire_labels]. rewrite <- app_assoc.
    pose proof (len_nonneg l). pose proof (len_nonneg (wire_labels ls)).
    rewrite question_labels_label by (rewrite ?len_app, ?len_cons; lia).
    replace (len pre + len ((len l :: l) ++ wire_labels ls))
      with (len (pre ++ len l :: l) + len (wire_labels ls))
      by (rewrite !len_app; lia).
    rewrite IH; try assumption.
    + cbn [map concat]. f_equal. f_equal.
      destruct out as [|c out]; [contradiction|].
      rewrite <- !app_assoc. reflexivity.
    + destruct out; [contradiction|discriminate].
    + cbn in Hfuel. lia.
Qed.

Lemma dotted_cons (l : list Z) (ls : list (list Z)) :
  dotted (l :: ls) = l ++ concat (map (cons 46) ls).
Proof.
  revert l. induction ls as [|l' ls IH]; intros l.
  - cbn. now rewrite app_nil_r.
  - change (dotted (l :: l' :: ls)) with (l ++ 46 :: dotted (l' :: ls)).
    rewrite IH. reflexivity.
Qed.

Lemma dotted_labels_nul_free (labels : list (list Z)) :
  Forall nul_free labels -> nul_free (dotted labels).
Proof.
  induction 1 as [|l ls Hl Hls IH]; [constructor|].
  destruct ls as [|l' ls]; [exact Hl|].
  change (dotted (l :: l' :: ls)) with (l ++ 46 :: dotted (l' :: ls)).
  apply Forall_app. split; [exact Hl|]. constructor; [discriminate|exact IH].
Qed.

Lemma find_nul_app (w rest : list Z) :
  nul_free w -> find_nul (w ++ 0 :: rest) = Some (length w).
Proof.
  induction 1 as [|c w Hc _ IH]; [reflexivity|].
  cbn [find_nul app]. destruct (Z.eqb_spec c 0); [contradiction|].
  now rewrite IH.
Qed.

Lemma strlen_at_spec (pre w rest : list Z) :
  nul_free w -> strlen_at (pre ++ w ++ 0 :: rest) (len pre) = Ok (len w).
Proof.
  intros Hw. unfold strlen_at. pose proof (len_nonneg pre).
  rewrite len_app. pose proof (len_nonneg (w ++ 0 :: rest)).
  replace ((0 <=? len pre) && (len pre <=? len pre + len (w ++ 0 :: rest)))
    with true by test_true.
  now rewrite skipn_len_app, find_nul_app.
Qed.

Lemma wire_labels_length (labels : list (list Z)) :
  (length labels <= length (wire_labels labels))%nat.
Proof.
  induction labels as [|l ls IH]; [reflexivity|].
  cbn [wire_labels]. rewrite length_app. cbn [length]. lia.
Qed.

Lemma extract_question_labels (l : list Z) (ls : list (list Z))
    (pre rest : list Z) (t0 t1 c0 c1 : Z) :
  Forall (fun l => 1 <= len l <= 127 /\ nul_free l) (l :: ls) ->
  len (wire_labels (l :: ls)) <= 32767 ->
  extract_question
    (pre ++ wire_labels (l :: ls) ++ 0 :: t0 :: t1 :: c0 :: c1 :: rest) (len pre) =
  Ok {| qname := dotted (l :: ls);
        qtype := ntohs (le_value [t0; t1]);
        qclass := ntohs (le_value [c0; c1]) |}.
Proof.
  intros Hl Hlen.
  set (w := wire_labels (l :: ls)) in *.
  set (tail := 0 :: t0 :: t1 :: c0 :: c1 :: rest).
  assert (Hnf : nul_free w).
  { subst w. clear -Hl. induction Hl as [|x xs [Hx1 Hx2] _ IH]; [constructor|].
    cbn [wire_labels]. apply Forall_app. split; [|exact IH].
    constructor; [lia|exact Hx2]. }
  assert (Hd : nul_free (dotted (l :: ls))).
  { apply dotted_labels_nul_free. revert Hl. apply Forall_weaken. tauto. }
  pose proof (len_nonneg w) as Hw0.
  unfold extract_question, extract_question_fuel.
  unfold tail at 1. rewrite strlen_at_spec by assumption. cbn [bind].
  rewrite to_short_small by lia.
  assert (Hw2 : 2 <= len w).
  { subst w. cbn [wire_labels]. rewrite len_app, len_cons.
    inversion Hl as [|? ? [Hl1 _] _]; subst.
    pose proof (len_nonneg (wire_labels ls)). lia. }
  unfold allocate. rewrite to_size_t_small by lia.
  replace (len w - 1 <=? PTRDIFF_MAX) with true
    by test_true.
  cbn [bind].
  assert (Hfuel : (length (l :: ls) < length (pre ++ w ++ tail))%nat).
  { pose proof (wire_labels_length (l :: ls)). fold w in H.
    rewrite !length_app. subst tail. cbn [length] in *. lia. }
  destruct (length (pre ++ w ++ tail)) as [|fuel] eqn:Ef; [lia|].
  inversion Hl as [|? ? [Hl1 Hl2] Hls]; subst.
  assert (Hls' : Forall (fun l => len l <= 127) ls)
    by (revert Hls; apply Forall_weaken; intros x [H _]; lia).
  subst w. cbn [wire_labels] in *. rewrite <- app_assoc.
  pose proof (len_nonneg (wire_labels ls)).
  rewrite question_labels_label by (rewrite ?len_app, ?len_cons in *; lia).
  cbn [app].
  replace (len pre + len (len l :: l ++ wire_labels ls))
    with (len (pre ++ len l :: l) + len (wire_labels ls))
    by (rewrite !len_app, !len_cons, len_app; lia).
  rewrite question_labels_spec; try assumption.
  2: { destruct l; [change (len []) with 0 in Hl1; lia|discriminate]. }
  2: { cbn [length] in Hfuel. lia. }
  cbn [bind].
  set (pos := len (pre ++ len l :: l) + len (wire_labels ls) + 1).
  set (head := (pre ++ len l :: l) ++ wire_labels ls ++ [0]).
  assert (Hpos : pos = len head)
    by (subst pos head; rewrite !len_app, !len_cons; change (len []) with 0; lia).
  replace (pre ++ len l :: l ++ wire_labels ls ++ tail)
    with (head ++ t0 :: t1 :: c0 :: c1 :: rest)
    by (subst tail head; rewrite <- !app_assoc; reflexivity).
  rewrite load_ushort_at by assumption.
  cbn [bind].
  replace (head ++ t0 :: t1 :: c0 :: c1 :: rest)
    with ((head ++ [t0; t1]) ++ c0 :: c1 :: rest)
    by (rewrite <- !app_assoc; reflexivity).
  rewrite load_ushort_at
    by (rewrite len_app, Hpos; reflexivity).
  cbn [bind].
  now rewrite <- dotted_cons, c_str_nul_free by assumption.
Qed.

Lemma valid_name_labels (labels : list (list Z)) :
  valid_name labels ->
  Forall (fun l => 1 <= len l <= 255 /\ Forall label_char l) labels /\
  Forall (fun l => 1 <= len l <= 127 /\ nul_free l) labels.
Proof.
  intros (_ & Hl & _). split; revert Hl; apply Forall_weaken;
    intros l [H1 H2]; (split; [lia|]); [exact H2|now apply label_chars_nul_free].
Qed.

(** C4. Name round trip: for every valid name (one or more dot-separated
    labels of 1 to 63 bytes, none containing a NUL or a dot, at most 255
    bytes once encoded), [hostname_to_qname] succeeds and returns the
    length-prefixed labels with their terminator, and [extract_question]
    run on that wire form, wherever it lies in a buffer and followed by
    the four type and class bytes, yields the original dotted name. *)
Theorem name_round_trip (labels : list (list Z)) (pre rest : list Z)
    (t0 t1 c0 c1 : Z) :
  valid_name labels ->
  exists wire question,
    hostname_to_qname (dotted labels) = Ok (Some wire) /\
    wire = wire_labels labels ++ [0] /\
    extract_question (pre ++ wire ++ t0 :: t1 :: c0 :: c1 :: rest) (len pre) =
      Ok question /\
    qname question = dotted labels.
Proof.
  intros Hv. destruct (valid_name_labels labels Hv) as [He Hd].
  destruct Hv as (Hne & _ & Hlen).
  destruct labels as [|l ls]; [contradiction|].
  eexists _, _. split; [|split; [reflexivity|split]].
  - apply hostname_to_qname_labels; [assumption|assumption|lia].
  - rewrite <- app_assoc. cbn [app].
    apply extract_question_labels; [assumption|lia].
  - reflexivity.
Qed.

Lemma name_round_trip_witness :
  exists wire question,
    hostname_to_qname
      (dotted [bytes_of_string "example"; bytes_of_string "com"]) = Ok (Some wire) /\
    wire = wire_labels [bytes_of_string "example"; bytes_of_string "com"] ++ [0] /\
    extract_question (query_header_wire ++ wire ++ 0 :: 1 :: 0 :: 1 :: [])
      (len query_header_wire) = Ok question /\
    qname question = dotted [bytes_of_string "example"; bytes_of_string "com"].
Proof.
  apply (name_round_trip [bytes_of_string "example"; bytes_of_string "com"]
           query_header_wire [] 0 1 0 1).
  unfold valid_name, valid_label. split; [discriminate|]. split.
  - repeat constructor; cbn; lia.
  - cbn. lia.
Defined.

(** C7. The query message: for every valid name, and whatever the
    allocated memory held before, the message [main] hands to [sendto] is
    the twelve header bytes, which read back as id 1, question count 1,
    the other three counts 0, rd = 1 and every other flag field 0,
    followed by the encoded name with its terminator and the big-endian
    type 1 and class 1, and nothing more; for "example.com" that is
    12 + 13 + 4 bytes. *)
Theorem build_query_output (labels : list (list Z)) (uninit : list Z) :
  valid_name labels ->
  len (wire_labels labels) + 17 <= len uninit ->
  build_query uninit (dotted labels) =
    Ok (Some (query_header_wire ++ wire_labels labels ++ [0] ++ be16 1 ++ be16 1)) /\
  decode_header query_header_wire =
    Ok ({| message_id := 1; flags := 256; qd_count := 1;
           an_count := 0; ns_count := 0; as_count := 0 |},
        {| rcode := 0; z := 0; ra := 0; rd := 1;
           tc := 0; aa := 0; opcode := 0; qr := 0 |}) /\
  (exists message,
     build_query (repeat 0 29) example_host = Ok (Some message) /\
     len message = 12 + 13 + 4).
Proof.
  intros Hv Hu. destruct (valid_name_labels labels Hv) as [He Hd].
  destruct Hv as (Hne & _ & Hlen).
  pose proof (len_nonneg (wire_labels labels)) as Hw0.
  split; [|split].
  - unfold build_query.
    rewrite hostname_to_qname_labels by (assumption || lia).
    cbn [bind].
    assert (Hnf : nul_free (wire_labels labels)).
    { apply wire_labels_nul_free. revert He. apply Forall_weaken.
      intros l [H1 H2]. split; [lia|exact H2]. }
    assert (Hs : strlen (wire_labels labels ++ [0]) = len (wire_labels labels))
      by (unfold strlen; now rewrite c_str_app_nul).
    unfold message_len, malloc, sizeof_dns_header, FIELD_SIZE. rewrite Hs.
    rewrite to_short_small, to_size_t_small by lia.
    replace ((12 + len (wire_labels labels) + 1 + 2 * 2 <=? PTRDIFF_MAX) &&
             (12 + len (wire_labels labels) + 1 + 2 * 2 <=? len uninit))
      with true
      by test_true.
    cbn [bind].
    set (m := firstn _ uninit).
    assert (Hm : len m = 17 + len (wire_labels labels))
      by (subst m; unfold len in *; rewrite length_firstn; lia).
    rewrite hydrate_message_spec by (rewrite Hs; lia).
    cbn [bind]. rewrite Hs, c_str_app_nul by assumption.
    rewrite skipn_all2 by (unfold len in *; lia).
    now rewrite app_nil_r.
  - rewrite <- (app_nil_r query_header_wire). apply decode_query_header.
  - eexists. split; reflexivity.
Qed.

Lemma build_query_output_witness :
  build_query (repeat 0 40)
    (dotted [bytes_of_string "example"; bytes_of_string "com"]) =
  Ok (Some (query_header_wire ++
            wire_labels [bytes_of_string "example"; bytes_of_string "com"] ++
            [0] ++ be16 1 ++ be16 1)).
Proof.
  apply (build_query_output [bytes_of_string "example"; bytes_of_string "com"]
           (repeat 0 40)).
  - unfold valid_name, valid_label. split; [discriminate|]. split.
    + repeat constructor; cbn; lia.
    + cbn. lia.
  - cbn. lia.
Defined.

(** C5, as the code has it.  Name encoding rejects an empty label: for
    every host string (of at most 32765 bytes, so that its length fits the
    [short] the code keeps it in) with an empty dot-separated piece, that
    is consecutive dots, a leading or a trailing dot, or the empty string,
    [hostname_to_qname] returns NULL and [main] builds no message.  It
    limits neither label nor name length: every name of non-empty labels
    of up to 255 bytes each, up to 32767 bytes once encoded, is encoded. *)
Theorem name_encoding_checks (host uninit : list Z) (labels : list (list Z)) :
  (strlen host + 2 <= 32767 ->
   In [] (split_dots (c_str host)) ->
   hostname_to_qname host = Ok None /\ build_query uninit host = Ok None) /\
  (labels <> [] ->
   Forall (fun l => 1 <= len l <= 255 /\ Forall label_char l) labels ->
   len (wire_labels labels) + 1 <= 32767 ->
   hostname_to_qname (dotted labels) = Ok (Some (wire_labels labels ++ [0]))).
Proof.
  split.
  - intros Hs Hin.
    pose proof (hostname_to_qname_empty_label host Hs Hin) as H.
    split; [exact H|]. unfold build_query. now rewrite H.
  - apply hostname_to_qname_labels.
Qed.

Lemma name_encoding_checks_witness :
  (hostname_to_qname (bytes_of_string "a..b") = Ok None /\
   build_query [] (bytes_of_string "a..b") = Ok None) /\
  hostname_to_qname (dotted [long_label_host]) =
  Ok (Some (wire_labels [long_label_host] ++ [0])).
Proof.
  destruct (name_encoding_checks (bytes_of_string "a..b") [] [long_label_host])
    as [Hreject Haccept].
  split.
  - apply Hreject.
    + apply Z.leb_le. reflexivity.
    + cbn. tauto.
  - apply Haccept.
    + discriminate.
    + constructor; [|constructor]. split; [cbn; lia|].
      apply Forall_forall. intros c Hc. apply repeat_spec in Hc. subst c.
      unfold label_char. lia.
    + apply Z.leb_le. reflexivity.
Defined.

(** C5 as stated fails: a host that is one label of 64 bytes is encoded,
    with length byte 64, and the query is built. *)
Lemma long_label_accepted :
  split_dots long_label_host = [long_label_host] /\
  len long_label_host = 64 /\
  hostname_to_qname long_label_host = Ok (Some (64 :: long_label_host ++ [0])) /\
  exists message, build_query (repeat 0 83) long_label_host = Ok (Some message).
Proof.
  split; [reflexivity|]. split; [reflexivity|]. split; [reflexivity|].
  eexists. reflexivity.
Qed.

(** C8, as the code has it.  A length byte with top bits 01 is not
    rejected: [extract_question] takes it as the length, 64 to 127, of an
    ordinary label, and when that many NUL-free bytes and the terminator
    follow, it returns them as the name. *)
Theorem reserved_01_length_accepted (b : Z) (label pre rest : list Z)
    (t0 t1 c0 c1 : Z) :
  Z.shiftr b 6 = 1 ->
  len label = b -> nul_free label ->
  extract_question
    (pre ++ b :: label ++ 0 :: t0 :: t1 :: c0 :: c1 :: rest) (len pre) =
  Ok {| qname := label;
        qtype := ntohs (le_value [t0; t1]);
        qclass := ntohs (le_value [c0; c1]) |}.
Proof.
  intros Hb Hlen Hnf.
  assert (Hr : 64 <= b <= 127).
  { rewrite Z.shiftr_div_pow2 in Hb by lia. change (2 ^ 6) with 64 in Hb.
    Z.div_mod_to_equations. lia. }
  subst b.
  pose proof (extract_question_labels label [] pre rest t0 t1 c0 c1) as H.
  cbn [wire_labels dotted] in H. rewrite app_nil_r in H.
  cbn [app] in H. apply H.
  - constructor; [split; [lia|assumption]|constructor].
  - rewrite len_cons. lia.
Qed.

Lemma reserved_01_length_accepted_witness :
  extract_question
    (response_header 0 ++ 64 :: repeat 97 64 ++ 0 :: 0 :: 1 :: 0 :: 1 :: [])
    (len (response_header 0)) =
  Ok {| qname := repeat 97 64;
        qtype := ntohs (le_value [0; 1]);
        qclass := ntohs (le_value [0; 1]) |}.
Proof.
  apply (reserved_01_length_accepted 64 (repeat 97 64) (response_header 0) [] 0 1 0 1).
  - reflexivity.
  - reflexivity.
  - unfold nul_free. apply Forall_forall. intros c Hc.
    apply repeat_spec in Hc. subst c. discriminate.
Defined.

(** C8 as stated fails: the length byte 64 = 01000000 at offset 12 of a
    received message is decoded, not rejected. *)
Lemma reserved_length_decoded :
  load_byte (receive reserved_length_response) 12 = Ok 64 /\
  Z.shiftr 64 6 = 1 /\
  extract_question (receive reserved_length_response) 12 =
  Ok {| qname := repeat 97 64; qtype := 1; qclass := 1 |}.
Proof. repeat split; reflexivity. Qed.

(** ** Resource records *)

Lemma inet_ntoa_le_value (a0 a1 a2 a3 : Z) :
  is_byte a0 -> is_byte a1 -> is_byte a2 -> is_byte a3 ->
  inet_ntoa (le_value [a0; a1; a2; a3]) =
  decimal a0 ++ [46] ++ decimal a1 ++ [46] ++ decimal a2 ++ [46] ++ decimal a3.
Proof.
  unfold is_byte. intros H0 H1 H2 H3.
  set (x := le_value [a0; a1; a2; a3]).
  assert (Hx : x = a0 + 256 * a1 + 65536 * a2 + 16777216 * a3)
    by (subst x; cbn [le_value]; lia).
  unfold inet_ntoa. rewrite !low_byte, !Z.shiftr_div_pow2 by lia.
  change (2 ^ 8) with 256. change (2 ^ 16) with 65536. change (2 ^ 24) with 16777216.
  replace (x mod 256) with a0 by (Z.div_mod_to_equations; lia).
  replace ((x / 256) mod 256) with a1 by (Z.div_mod_to_equations; lia).
  replace ((x / 65536) mod 256) with a2 by (Z.div_mod_to_equations; lia).
  replace ((x / 16777216) mod 256) with a3 by (Z.div_mod_to_equations; lia).
  reflexivity.
Qed.

Lemma extract_resource_record_wire (pre post : list Z)
    (n0 n1 t0 t1 c0 c1 l0 l1 l2 l3 r0 r1 a0 a1 a2 a3 : Z) :
  Forall is_byte [n0; n1; t0; t1; c0; c1; l0; l1; l2; l3; r0; r1; a0; a1; a2; a3] ->
  extract_resource_record
    (pre ++ [n0; n1; t0; t1; c0; c1; l0; l1; l2; l3; r0; r1; a0; a1; a2; a3] ++ post)
    (len pre) =
  Ok {| offset := Z.land (n0 * 256 + n1) 16383;
        type := t0 * 256 + t1;
        class := c0 * 256 + c1;
        ttl := l0 * 16777216 + l1 * 65536 + l2 * 256 + l3;
        rd_length := r0 * 256 + r1;
        ip_addr := decimal a0 ++ [46] ++ decimal a1 ++ [46] ++
                   decimal a2 ++ [46] ++ decimal a3 |}.
Proof.
  intros H.
  repeat match goal with
         | H : Forall _ (_ :: _) |- _ =>
             let Hb := fresh "Hb" in
             let Hr := fresh "Hr" in
             inversion H as [|? ? Hb Hr]; subst; clear H
         end.
  unfold extract_resource_record, load_ushort, load_uint.
  set (bs := [n0; n1; t0; t1; c0; c1; l0; l1; l2; l3; r0; r1; a0; a1; a2; a3]).
  rewrite (load_bytes_window pre bs post _ 0 2 [n0; n1]) by (reflexivity || lia).
  cbn [bind].
  rewrite (load_bytes_window pre bs post _ 2 2 [t0; t1]) by (reflexivity || lia).
  cbn [bind].
  rewrite (load_bytes_window pre bs post _ 4 2 [c0; c1]) by (reflexivity || lia).
  cbn [bind].
  rewrite (load_bytes_window pre bs post _ 6 4 [l0; l1; l2; l3]) by (reflexivity || lia).
  cbn [bind].
  rewrite (load_bytes_window pre bs post _ 10 2 [r0; r1]) by (reflexivity || lia).
  cbn [bind].
  rewrite (load_bytes_window pre bs post _ 12 4 [a0; a1; a2; a3]) by (reflexivity || lia).
  cbn [bind].
  now rewrite !ntohs_le_value, ntohl_le_value, inet_ntoa_le_value.
Qed.

Lemma pointer_bytes (p : Z) :
  0 <= p < 16384 ->
  is_byte (192 + p / 256) /\ is_byte (p mod 256) /\
  Z.land ((192 + p / 256) * 256 + p mod 256) 16383 = p.
Proof.
  intros Hp. unfold is_byte.
  split; [Z.div_mod_to_equations; lia|].
  split; [Z.div_mod_to_equations; lia|].
  change 16383 with (Z.ones 14). rewrite Z.land_ones by lia.
  change (2 ^ 14) with 16384. Z.div_mod_to_equations; lia.
Qed.

(** C1, as the code has it.  A record whose name is a two-byte
    compression pointer (top bits 11, 14-bit offset p) is not followed:
    [extract_resource_record] reports the offset [p] itself, reads type,
    class, TTL, rdlength and the address from the fourteen bytes right
    behind the two pointer bytes, and yields no dotted name; nothing at
    offset [p], nor anywhere else in the buffer, enters the result. *)
Theorem pointer_name_reports_offset (pre post : list Z) (p : Z)
    (t0 t1 c0 c1 l0 l1 l2 l3 r0 r1 a0 a1 a2 a3 : Z) :
  0 <= p < 16384 ->
  Forall is_byte [t0; t1; c0; c1; l0; l1; l2; l3; r0; r1; a0; a1; a2; a3] ->
  extract_resource_record
    (pre ++ [192 + p / 256; p mod 256;
             t0; t1; c0; c1; l0; l1; l2; l3; r0; r1; a0; a1; a2; a3] ++ post)
    (len pre) =
  Ok {| offset := p;
        type := t0 * 256 + t1;
        class := c0 * 256 + c1;
        ttl := l0 * 16777216 + l1 * 65536 + l2 * 256 + l3;
        rd_length := r0 * 256 + r1;
        ip_addr := decimal a0 ++ [46] ++ decimal a1 ++ [46] ++
                   decimal a2 ++ [46] ++ decimal a3 |}.
Proof.
  intros Hp Hb. destruct (pointer_bytes p Hp) as (H0 & H1 & Hland).
  rewrite extract_resource_record_wire by (constructor; [|constructor]; assumption).
  now rewrite Hland.
Qed.

Lemma pointer_name_reports_offset_witness :
  extract_resource_record
    (firstn 33 compressed_response ++
     [192 + 12 / 256; 12 mod 256; 0; 1; 0; 1; 0; 0; 1; 44; 0; 4; 93; 184; 216; 34] ++ [])
    (len (firstn 33 compressed_response)) =
  Ok {| offset := 12;
        type := 0 * 256 + 1;
        class := 0 * 256 + 1;
        ttl := 0 * 16777216 + 0 * 65536 + 1 * 256 + 44;
        rd_length := 0 * 256 + 4;
        ip_addr := decimal 93 ++ [46] ++ decimal 184 ++ [46] ++
                   decimal 216 ++ [46] ++ decimal 34 |}.
Proof.
  apply (pointer_name_reports_offset (firstn 33 compressed_response) [] 12
           0 1 0 1 0 0 1 44 0 4 93 184 216 34).
  - lia.
  - repeat constructor; lia.
Defined.

(** C1 as stated fails: with [3]www[7]example[3]com[0] at offset 12 and
    the pointer 0xC0 0x0C at offset 33, the name decoder yields
    "www.example.com" at offset 12 but no name at offset 33, where the
    byte 0xC0 is read as a negative label length; and the record decoder
    yields the number 12, not the name. *)
Lemma pointer_not_followed :
  (exists q, extract_question (receive compressed_response) 12 = Ok q /\
             qname q = bytes_of_string "www.example.com") /\
  load_bytes (receive compressed_response) 33 2 = Ok [192; 12] /\
  extract_question (receive compressed_response) 33 = Fault /\
  (exists r, extract_resource_record (receive compressed_response) 33 = Ok r /\
             offset r = 12).
Proof.
  split; [eexists; split; reflexivity|].
  split; [reflexivity|]. split; [reflexivity|].
  eexists; split; reflexivity.
Qed.

(** C9, as the code has it.  The declared rdlength of an address record
    is not compared with the type: for a record of type 1 with any
    rdlength from 0 to 65535, [extract_resource_record] succeeds as soon
    as sixteen bytes are readable, returns the rdlength as declared, and
    takes exactly the four bytes behind the rdlength field as the
    address. *)
Theorem address_rdlength_unchecked (pre post : list Z) (rdlength : Z)
    (n0 n1 c0 c1 l0 l1 l2 l3 a0 a1 a2 a3 : Z) :
  is_ushort rdlength ->
  Forall is_byte [n0; n1; c0; c1; l0; l1; l2; l3; a0; a1; a2; a3] ->
  exists r,
    extract_resource_record
      (pre ++ [n0; n1; 0; 1; c0; c1; l0; l1; l2; l3;
               rdlength / 256; rdlength mod 256; a0; a1; a2; a3] ++ post)
      (len pre) = Ok r /\
    type r = 1 /\
    rd_length r = rdlength /\
    ip_addr r = decimal a0 ++ [46] ++ decimal a1 ++ [46] ++
                decimal a2 ++ [46] ++ decimal a3.
Proof.
  unfold is_ushort. intros Hr Hb.
  repeat match goal with
         | H : Forall _ (_ :: _) |- _ =>
             let Hx := fresh "Hx" in
             let Hy := fresh "Hy" in
             inversion H as [|? ? Hx Hy]; subst; clear H
         end.
  eexists. split.
  - apply extract_resource_record_wire.
    repeat match goal with
           | |- Forall _ (_ :: _) => apply Forall_cons
           | |- Forall _ [] => apply Forall_nil
           end; try assumption; unfold is_byte;
      try lia; Z.div_mod_to_equations; lia.
  - cbn [type rd_length ip_addr]. repeat split.
    Z.div_mod_to_equations; lia.
Qed.

Lemma address_rdlength_unchecked_witness :
  exists r,
    extract_resource_record
      (firstn 19 mismatched_length_response ++
       [192; 12; 0; 1; 0; 1; 0; 0; 0; 60; 5 / 256; 5 mod 256; 93; 184; 216; 34] ++ [7])
      (len (firstn 19 mismatched_length_response)) = Ok r /\
    type r = 1 /\
    rd_length r = 5 /\
    ip_addr r = decimal 93 ++ [46] ++ decimal 184 ++ [46] ++
                decimal 216 ++ [46] ++ decimal 34.
Proof.
  apply (address_rdlength_unchecked (firstn 19 mismatched_length_response) [7] 5
           192 12 0 1 0 0 0 60 93 184 216 34).
  - unfold is_ushort. lia.
  - repeat constructor; lia.
Defined.

(** C9 as stated fails: an address record declaring five bytes of rdata
    is decoded without complaint, its address cut to four bytes. *)
Lemma mismatched_rdlength_accepted :
  exists r,
    extract_resource_record (receive mismatched_length_response) 19 = Ok r /\
    type r = 1 /\ rd_length r = 5 /\ rd_length r <> 4 /\
    ip_addr r = bytes_of_string "93.184.216.34".
Proof.
  eexists. split; [reflexivity|]. repeat split. discriminate.
Qed.

(** ** The answer loop *)

Lemma extract_resource_record_ok (mem : list Z) (source : Z) :
  0 <= source -> source + 16 <= len mem ->
  exists r, extract_resource_record mem source = Ok r.
Proof.
  intros. unfold extract_resource_record, load_ushort, load_uint.
  rewrite !load_bytes_ok by lia. cbn [bind]. eauto.
Qed.

Lemma answers_spec (n : nat) :
  forall (i : Z) (response : list Z) (question : dns_question),
    let base := sizeof_dns_header + get_qname_len (qname question) + 2 * FIELD_SIZE in
    0 <= i -> 0 <= base -> base + 16 * (i + Z.of_nat n) <= len response ->
    exists records,
      answers n i response question = Ok records /\
      length records = n /\
      forall k r, nth_error records k = Some r ->
                  extract_resource_record response (base + (i + Z.of_nat k) * 16) = Ok r.
Proof.
  induction n as [|n IH]; intros i response question base Hi Hb Hlen.
  - exists []. repeat split. intros [|k] r H; discriminate.
  - cbn [answers]. fold base.
    destruct (extract_resource_record_ok response (base + i * 16)) as (r0 & Hr0);
      [lia|lia|].
    rewrite Hr0. cbn [bind].
    destruct (IH (i + 1) response question) as (rs & Hrs & Hn & Hnth);
      [lia|assumption|fold base; lia|].
    rewrite Hrs. cbn [bind]. exists (r0 :: rs). repeat split.
    + cbn [length]. now rewrite Hn.
    + intros [|k] r H.
      * injection H as <-. now rewrite Z.add_0_r.
      * cbn [nth_error] in H. apply Hnth in H. fold base in H.
        now replace (i + Z.of_nat (S k)) with (i + 1 + Z.of_nat k) by lia.
Qed.

Lemma store_bytes_front (mem bs : list Z) :
  len bs <= len mem ->
  store_bytes mem 0 bs = Ok (bs ++ skipn (Z.to_nat (len bs)) mem).
Proof.
  intros H. unfold store_bytes.
  now replace ((0 <=? 0) && (0 + len bs <=? len mem)) with true
    by test_true.
Qed.

Lemma load_header_len (mem : list Z) (h : dns_header) :
  load_header mem 0 = Ok h -> 12 <= len mem.
Proof.
  intros H. destruct (Z.lt_ge_cases (len mem) 12) as [Hlt|Hge]; [|exact Hge].
  rewrite load_header_fault in H by assumption. discriminate.
Qed.

(** C2, as the code has it.  The response half of [main] decodes the
    header, swapping its bytes in place, then one question, whatever the
    question count says, then exactly answer-count resource records, the
    record of index k at the fixed offset 12 + (strlen(qname) + 2) + 4 +
    16 k: a stride of sixteen bytes per record, not a running offset.
    Every one of them is decoded as soon as these offsets lie within the
    buffer. *)
Theorem answers_fixed_stride (response : list Z) (header : dns_header)
    (fl : dns_header_flags) (question : dns_question) :
  decode_header response = Ok (header, fl) ->
  let flipped := header_bytes header ++ skipn 12 response in
  extract_question flipped sizeof_dns_header = Ok question ->
  let base := 12 + get_qname_len (qname question) + 4 in
  0 <= base -> base + 16 * an_count header <= len response ->
  exists records,
    parse_response response = Ok (header, fl, question, records) /\
    Z.of_nat (length records) = an_count header /\
    forall k r, nth_error records k = Some r ->
                extract_resource_record flipped (base + 16 * Z.of_nat k) = Ok r.
Proof.
  intros Hh flipped Hq base Hb Hlen.
  unfold decode_header in Hh. unfold parse_response.
  destruct (load_header response 0) as [h0| |] eqn:Eh; cbn [bind] in *;
    try discriminate.
  apply load_header_len in Eh.
  injection Hh as <- <-.
  unfold store_header. rewrite store_bytes_front by (change (len (header_bytes _)) with 12; lia).
  cbn [bind]. change (Z.to_nat (len (header_bytes (flip_dns_header h0)))) with 12%nat.
  fold flipped. rewrite Hq. cbn [bind].
  assert (Han : 0 <= an_count (flip_dns_header h0)) by apply htons_range.
  assert (Hfl : len flipped = len response).
  { subst flipped. rewrite len_app. change (len (header_bytes _)) with 12.
    unfold len in *. rewrite length_skipn. lia. }
  destruct (answers_spec (Z.to_nat (an_count (flip_dns_header h0))) 0 flipped question)
    as (records & -> & Hn & Hnth);
    [lia|exact Hb|fold base; unfold sizeof_dns_header, FIELD_SIZE; lia|].
  cbn [bind]. exists records. repeat split.
  - lia.
  - intros k r H. apply Hnth in H.
    unfold sizeof_dns_header, FIELD_SIZE in H. subst base.
    now replace (12 + get_qname_len (qname question) + 4 + 16 * Z.of_nat k)
      with (12 + get_qname_len (qname question) + 2 * 2 + (0 + Z.of_nat k) * 16) by lia.
Qed.

Lemma answers_fixed_stride_witness :
  exists records,
    parse_response (receive stride_response) =
      Ok (mk_header 1 33152 1 2 0 0, mk_flags 0 0 1 1 0 0 0 1,
          mk_question [97] 1 1, records) /\
    Z.of_nat (length records) = 2 /\
    forall k r, nth_error records k = Some r ->
                extract_resource_record
                  (header_bytes (mk_header 1 33152 1 2 0 0) ++
                   skipn 12 (receive stride_response))
                  (12 + get_qname_len [97] + 4 + 16 * Z.of_nat k) = Ok r.
Proof.
  apply (answers_fixed_stride (receive stride_response)
           (mk_header 1 33152 1 2 0 0) (mk_flags 0 0 1 1 0 0 0 1)
           (mk_question [97] 1 1)).
  - reflexivity.
  - reflexivity.
  - apply Z.leb_le. reflexivity.
  - apply Z.leb_le. reflexivity.
Defined.

(** C2 as stated fails: in a response whose first answer occupies 28
    bytes (a two-byte name, ten bytes of fields, sixteen bytes of rdata),
    the second answer starts at offset 19 + 28 = 47, but [main] decodes it
    at 19 + 16 = 35, inside the rdata of the first; the record it reports
    is not the address record on the wire. *)
Lemma fixed_stride_misreads_second_record :
  exists h fl q r0 r1 r1',
    parse_response (receive stride_response) = Ok (h, fl, q, [r0; r1]) /\
    an_count h = 2 /\
    extract_resource_record (receive stride_response) 19 = Ok r0 /\
    extract_resource_record (receive stride_response)
      (19 + record_wire_size 2 r0) = Ok r1' /\
    type r1' = 1 /\ ip_addr r1' = bytes_of_string "93.184.216.34" /\
    r1 <> r1'.
Proof.
  do 6 eexists.
  split; [reflexivity|]. split; [reflexivity|]. split; [reflexivity|].
  split; [reflexivity|]. split; [reflexivity|]. split; [reflexivity|].
  discriminate.
Qed.

(** ** The label loop and its fuel *)

Lemma in_firstn (n : nat) (l : list Z) (x : Z) : In x (firstn n l) -> In x l.
Proof.
  intros H. rewrite <- (firstn_skipn n l). apply in_or_app. now left.
Qed.

Lemma in_skipn (n : nat) (l : list Z) (x : Z) : In x (skipn n l) -> In x l.
Proof.
  intros H. rewrite <- (firstn_skipn n l). apply in_or_app. now right.
Qed.

Lemma load_byte_inv (mem : list Z) (off b : Z) :
  load_byte mem off = Ok b -> 0 <= off /\ In b mem.
Proof.
  unfold load_byte. destruct (load_bytes mem off 1) as [bs| |] eqn:E;
    cbn [bind]; try discriminate.
  apply load_bytes_inv in E. destruct E as (Hoff & _ & _ & ->).
  destruct (firstn _ _) as [|x [|y r]] eqn:F; try discriminate.
  intros [= <-]. split; [assumption|].
  assert (Hin : In x (firstn (Z.to_nat 1) (skipn (Z.to_nat off) mem)))
    by (rewrite F; now left).
  eapply in_skipn, in_firstn, Hin.
Qed.

Lemma load_byte_not_out_of_fuel (mem : list Z) (off : Z) :
  load_byte mem off <> OutOfFuel.
Proof.
  unfold load_byte. pose proof (load_bytes_not_out_of_fuel mem off 1).
  destruct (load_bytes mem off 1) as [[|x [|y r]]| |]; cbn [bind];
    congruence.
Qed.

Lemma load_ushort_not_out_of_fuel (mem : list Z) (off : Z) :
  load_ushort mem off <> OutOfFuel.
Proof.
  unfold load_ushort. pose proof (load_bytes_not_out_of_fuel mem off 2).
  destruct (load_bytes mem off 2); cbn [bind]; congruence.
Qed.

Lemma char_value_range (b : Z) : is_byte b -> -128 <= char_value b <= 127.
Proof.
  unfold is_byte, char_value. intros H. destruct (Z.ltb_spec b 128); lia.
Qed.

Lemma to_size_t_negative (n : Z) :
  -128 <= n < 0 -> to_size_t n = n + 18446744073709551616.
Proof.
  intros H. unfold to_size_t. symmetry.
  apply (Z.mod_unique n 18446744073709551616 (-1)); lia.
Qed.

Lemma to_size_t_char (n : Z) : 0 <= n <= 127 -> to_size_t n = n.
Proof. intros H. apply to_size_t_small. lia. Qed.

Lemma to_short_le (n : Z) : 0 <= n -> to_short n <= n.
Proof.
  intros H. unfold to_short. cbv zeta.
  pose proof (Z.mod_le n 65536 H ltac:(lia)).
  destruct (Z.ltb_spec (n mod 65536) 32768); lia.
Qed.

Lemma find_nul_bound (s : list Z) (n : nat) :
  find_nul s = Some n -> (n < length s)%nat.
Proof.
  revert n. induction s as [|c s IH]; intros n; [discriminate|].
  cbn [find_nul length]. destruct (c =? 0).
  - intros [= <-]. lia.
  - destruct (find_nul s) as [k|]; [|discriminate].
    cbn [option_map]. intros [= <-]. specialize (IH k eq_refl). lia.
Qed.

Lemma strlen_at_inv (mem : list Z) (off n : Z) :
  strlen_at mem off = Ok n -> 0 <= off /\ 0 <= n /\ off + n <= len mem.
Proof.
  unfold strlen_at.
  destruct ((0 <=? off) && (off <=? len mem)) eqn:E; [|discriminate].
  rewrite andb_true_iff, !Z.leb_le in E.
  destruct (find_nul _) as [k|] eqn:F; [|discriminate].
  intros [= <-]. apply find_nul_bound in F. rewrite length_skipn in F.
  unfold len in *. lia.
Qed.

Lemma strlen_at_not_out_of_fuel (mem : list Z) (off : Z) :
  strlen_at mem off <> OutOfFuel.
Proof.
  unfold strlen_at. destruct (_ && _); [|discriminate].
  destruct (find_nul _); discriminate.
Qed.

Lemma question_labels_fuel (fuel : nat) :
  forall (fuel' : nat) (mem : list Z) (limit section_pos : Z) (out : list Z),
    Forall is_byte mem -> len mem <= PTRDIFF_MAX ->
    limit - section_pos <= Z.of_nat fuel ->
    limit - section_pos <= Z.of_nat fuel' ->
    question_labels fuel mem limit section_pos out =
      question_labels fuel' mem limit section_pos out /\
    question_labels fuel mem limit section_pos out <> OutOfFuel.
Proof.
  induction fuel as [|fuel IH]; intros fuel' mem limit sp out Hb Hm Hf Hf';
    destruct (Z.lt_ge_cases sp limit) as [Hlt|Hge];
    try (rewrite !question_labels_exit by assumption; split; [reflexivity|discriminate]).
  - lia.
  - destruct fuel' as [|fuel']; [lia|].
    rewrite !question_labels_step by assumption.
    pose proof (load_byte_not_out_of_fuel mem sp) as Hb1.
    destruct (load_byte mem sp) as [b| |] eqn:Eb; cbn [bind];
      [|split; [reflexivity|discriminate]|contradiction].
    apply load_byte_inv in Eb. destruct Eb as [Hsp Hin].
    pose proof (char_value_range b (proj1 (Forall_forall _ _) Hb b Hin)) as Hn.
    pose proof (load_bytes_not_out_of_fuel mem (sp + 1) (to_size_t (char_value b))) as Hb2.
    destruct (load_bytes mem (sp + 1) (to_size_t (char_value b))) as [label| |] eqn:El;
      cbn [bind]; [|split; [reflexivity|discriminate]|contradiction].
    apply load_bytes_inv in El. destruct El as (_ & _ & Hle & _).
    destruct (Z.lt_ge_cases (char_value b) 0) as [Hneg|Hpos].
    { rewrite to_size_t_negative in Hle by lia. unfold PTRDIFF_MAX in Hm. lia. }
    apply IH; try assumption; lia.
Qed.

Lemma extract_resource_record_returns (mem : list Z) (source : Z) :
  extract_resource_record mem source <> OutOfFuel.
Proof.
  unfold extract_resource_record, load_ushort, load_uint.
  repeat match goal with
         | |- context [load_bytes mem ?o ?n] =>
             let E := fresh "E" in
             destruct (load_bytes mem o n) as [?| |] eqn:E; cbn [bind];
             [|discriminate|exfalso; exact (load_bytes_not_out_of_fuel _ _ _ E)]
         end.
  discriminate.
Qed.





(** * Further properties of the codec *)

(** ** The header, in both directions *)

Lemma get_field_range (f : flag_field) (unit : Z) :
  0 <= get_field f unit < 2 ^ field_width f.
Proof.
  rewrite get_field_arith. apply Z.mod_pos_bound.
  apply Z.pow_pos_nonneg; [lia|]. pose proof (field_bounds f). lia.
Qed.

Lemma get_flags_in_range (unit : Z) : flags_in_range (get_flags unit).
Proof.
  unfold flags_in_range, get_flags. cbn [qr opcode aa tc rd ra z rcode].
  pose proof (get_field_range Qr unit). pose proof (get_field_range Opcode unit).
  pose proof (get_field_range Aa unit). pose proof (get_field_range Tc unit).
  pose proof (get_field_range Rd unit). pose proof (get_field_range Ra unit).
  pose proof (get_field_range Zres unit). pose proof (get_field_range Rcode unit).
  cbn [field_width] in *.
  change (2 ^ 1) with 2 in *. change (2 ^ 3) with 8 in *. change (2 ^ 4) with 16 in *.
  tauto.
Qed.

Lemma le_value_range (a b : Z) : is_byte a -> is_byte b -> is_ushort (le_value [a; b]).
Proof. unfold is_byte, is_ushort. cbn [le_value]. lia. Qed.

Lemma le_bytes_le_value (a b : Z) :
  is_byte a -> is_byte b -> le_bytes 2 (le_value [a; b]) = [a; b].
Proof.
  unfold is_byte. intros Ha Hb. cbn [le_bytes le_value].
  f_equal; [|f_equal]; Z.div_mod_to_equations; lia.
Qed.

Lemma header_eta (h : dns_header) :
  {| message_id := message_id h; flags := flags h; qd_count := qd_count h;
     an_count := an_count h; ns_count := ns_count h; as_count := as_count h |} = h.
Proof. now destruct h. Qed.

(** X1.  [extract_header], the function the source keeps for responses, and
    [flip_dns_header], the one [main] calls on them, undo each other on
    every header of 16-bit fields. *)
Theorem extract_header_flip (h : dns_header) :
  header_in_range h ->
  extract_header (flip_dns_header h) = h /\
  flip_dns_header (extract_header h) = h.
Proof.
  intros Hh.
  change (extract_header (flip_dns_header h)) with (flip_dns_header (flip_dns_header h)).
  change (flip_dns_header (extract_header h)) with (flip_dns_header (flip_dns_header h)).
  split; now apply flip_involutive.
Qed.

Lemma extract_header_flip_witness :
  extract_header (flip_dns_header (mk_header 4660 33152 1 2 3 4)) =
    mk_header 4660 33152 1 2 3 4 /\
  flip_dns_header (extract_header (mk_header 4660 33152 1 2 3 4)) =
    mk_header 4660 33152 1 2 3 4.
Proof.
  apply (extract_header_flip (mk_header 4660 33152 1 2 3 4)).
  unfold header_in_range, is_ushort. cbn. lia.
Defined.

(** X2.  Every twelve bytes are a header: reading them as [main] reads a
    response header always succeeds, gives 16-bit fields and flag
    sub-fields within their widths, and writing those back with the
    bit-field assignments and [flip_dns_header] gives the same twelve
    bytes again.  No bit of the flags word is lost or counted twice. *)
Theorem header_bytes_round_trip (wire rest : list Z) :
  length wire = 12%nat -> Forall is_byte wire ->
  exists h fl,
    decode_header (wire ++ rest) = Ok (h, fl) /\
    header_in_range h /\ flags_in_range fl /\
    flags_word fl = flags h /\
    encode_header h fl = wire.
Proof.
  intros Hlen Hb.
  do 12 (destruct wire as [|? wire]; [discriminate|]).
  destruct wire; [|discriminate]. clear Hlen.
  repeat match goal with
         | H : Forall _ (_ :: _) |- _ =>
             let Hx := fresh "Hx" in
             let Hy := fresh "Hy" in
             inversion H as [|? ? Hx Hy]; subst; clear H
         end.
  unfold decode_header.
  match goal with
  | |- context [load_header (?l ++ rest) 0] =>
      change (l ++ rest) with ([] ++ l ++ rest)
  end.
  rewrite load_header_at by reflexivity. cbn [bind].
  set (loaded := mk_header _ _ _ _ _ _).
  assert (Hl : header_in_range loaded)
    by (repeat split; apply le_value_range; assumption).
  eexists _, _. split; [reflexivity|].
  split; [apply flip_in_range|]. split; [apply get_flags_in_range|].
  assert (Hw : flags_word (get_flags (flags (flip_dns_header loaded))) =
               flags (flip_dns_header loaded))
    by (apply flags_word_get_flags, htons_range).
  split; [exact Hw|].
  unfold encode_header.
  rewrite set_flags_word by apply get_flags_in_range.
  rewrite Hw, header_eta, flip_involutive by assumption.
  subst loaded. unfold header_bytes.
  cbn [message_id flags qd_count an_count ns_count as_count].
  now rewrite !le_bytes_le_value.
Qed.

Lemma header_bytes_round_trip_witness :
  exists h fl,
    decode_header (response_header 2 ++ [1; 97; 0]) = Ok (h, fl) /\
    header_in_range h /\ flags_in_range fl /\
    flags_word fl = flags h /\
    encode_header h fl = response_header 2.
Proof.
  apply (header_bytes_round_trip (response_header 2) [1; 97; 0]).
  - reflexivity.
  - repeat constructor; lia.
Defined.

(** ** What a record read touches *)

Lemma load_bytes_frame (pre bs post : list Z) (k off n : Z) :
  k = len pre + off -> 0 <= off -> 0 <= n -> off + n <= len bs ->
  load_bytes (pre ++ bs ++ post) k n = load_bytes bs off n.
Proof.
  intros Hk Hoff Hn Hle.
  rewrite (load_bytes_ok bs off n) by assumption.
  apply (load_bytes_window pre bs post k off n); [assumption|now apply load_bytes_ok].
Qed.

Lemma load_bytes_fault (mem : list Z) (off n : Z) :
  off < 0 \/ len mem < off + n -> load_bytes mem off n = Fault.
Proof.
  intros H. destruct (load_bytes mem off n) as [r| |] eqn:E.
  - apply load_bytes_inv in E. lia.
  - reflexivity.
  - now apply load_bytes_not_out_of_fuel in E.
Qed.

Lemma extract_resource_record_bounds (mem : list Z) (source : Z) (r : dns_resource_record) :
  extract_resource_record mem source = Ok r -> 0 <= source /\ source + 16 <= len mem.
Proof.
  unfold extract_resource_record, load_ushort, load_uint.
  destruct (load_bytes mem source 2) as [?| |] eqn:E0; cbn [bind]; try discriminate.
  destruct (load_bytes mem (source + 2) 2) as [?| |]; cbn [bind]; try discriminate.
  destruct (load_bytes mem (source + 2 + 2) 2) as [?| |]; cbn [bind]; try discriminate.
  destruct (load_bytes mem (source + 2 + 2 + 2) 4) as [?| |]; cbn [bind]; try discriminate.
  destruct (load_bytes mem (source + 2 + 2 + 2 + 4) 2) as [?| |]; cbn [bind];
    try discriminate.
  destruct (load_bytes mem (source + 2 + 2 + 2 + 4 + 2) 4) as [?| |] eqn:E5; cbn [bind];
    try discriminate.
  intros _. apply load_bytes_inv in E0, E5. lia.
Qed.

Lemma extract_resource_record_fault (mem : list Z) (source : Z) :
  source < 0 \/ len mem < source + 16 -> extract_resource_record mem source = Fault.
Proof.
  intros H. destruct (extract_resource_record mem source) as [r| |] eqn:E.
  - apply extract_resource_record_bounds in E. lia.
  - reflexivity.
  - now apply extract_resource_record_returns in E.
Qed.

Lemma extract_resource_record_frame (pre bs post : list Z) :
  len bs = 16 ->
  extract_resource_record (pre ++ bs ++ post) (len pre) = extract_resource_record bs 0.
Proof.
  intros Hlen. unfold extract_resource_record, load_ushort, load_uint.
  rewrite (load_bytes_frame pre bs post (len pre) 0 2) by lia.
  rewrite (load_bytes_frame pre bs post (len pre + 2) (0 + 2) 2) by lia.
  rewrite (load_bytes_frame pre bs post (len pre + 2 + 2) (0 + 2 + 2) 2) by lia.
  rewrite (load_bytes_frame pre bs post (len pre + 2 + 2 + 2) (0 + 2 + 2 + 2) 4) by lia.
  rewrite (load_bytes_frame pre bs post (len pre + 2 + 2 + 2 + 4) (0 + 2 + 2 + 2 + 4) 2)
    by lia.
  rewrite (load_bytes_frame pre bs post (len pre + 2 + 2 + 2 + 4 + 2)
             (0 + 2 + 2 + 2 + 4 + 2) 4) by lia.
  reflexivity.
Qed.

(** X3.  [extract_resource_record] reads sixteen bytes and no more, whatever
    type and rdlength they declare: it returns a record exactly when the
    sixteen bytes from [source] lie inside the buffer and reads outside
    it otherwise, and the record is the one the sixteen bytes give on
    their own, wherever they lie and whatever surrounds them. *)
Theorem record_read_is_sixteen_bytes (mem pre bs post : list Z) (source : Z) :
  ((exists r, extract_resource_record mem source = Ok r) <->
   0 <= source /\ source + 16 <= len mem) /\
  (~ (0 <= source /\ source + 16 <= len mem) ->
   extract_resource_record mem source = Fault) /\
  (len bs = 16 ->
   extract_resource_record (pre ++ bs ++ post) (len pre) =
   extract_resource_record bs 0).
Proof.
  split; [split|split].
  - intros [r Hr]. eapply extract_resource_record_bounds, Hr.
  - intros [H0 H1]. now apply extract_resource_record_ok.
  - intros H. apply extract_resource_record_fault. lia.
  - apply extract_resource_record_frame.
Qed.

Lemma record_read_is_sixteen_bytes_witness :
  extract_resource_record (firstn 40 stride_response) 35 = Fault /\
  extract_resource_record
    (firstn 33 compressed_response ++
     [192; 12; 0; 1; 0; 1; 0; 0; 1; 44; 0; 4; 93; 184; 216; 34] ++ [9; 9])
    (len (firstn 33 compressed_response)) =
  extract_resource_record [192; 12; 0; 1; 0; 1; 0; 0; 1; 44; 0; 4; 93; 184; 216; 34] 0.
Proof.
  destruct (record_read_is_sixteen_bytes (firstn 40 stride_response)
              (firstn 33 compressed_response)
              [192; 12; 0; 1; 0; 1; 0; 0; 1; 44; 0; 4; 93; 184; 216; 34] [9; 9] 35)
    as (_ & Hfault & Hframe).
  split.
  - apply Hfault. intros [_ H]. revert H. apply Z.lt_nge. reflexivity.
  - apply Hframe. reflexivity.
Defined.

(** ** Responses shorter or longer than they declare *)

Lemma receive_len (datagram : list Z) : len (receive datagram) = BUFFER_SIZE.
Proof.
  unfold receive, BUFFER_SIZE. cbv zeta. rewrite len_app.
  unfold len. rewrite repeat_length, length_firstn. lia.
Qed.

Lemma receive_short (datagram : list Z) :
  len datagram <= BUFFER_SIZE ->
  receive datagram = datagram ++ repeat 0 (Z.to_nat (BUFFER_SIZE - len datagram)).
Proof.
  intros H. unfold receive. cbv zeta.
  now rewrite firstn_all2 by (unfold len, BUFFER_SIZE in *; lia).
Qed.

Lemma load_bytes_zeros (pre : list Z) (k : nat) (off n : Z) :
  len pre <= off -> 0 <= n -> off + n <= len pre + Z.of_nat k ->
  load_bytes (pre ++ repeat 0 k) off n = Ok (repeat 0 (Z.to_nat n)).
Proof.
  intros Hoff Hn Hle. pose proof (len_nonneg pre).
  rewrite load_bytes_ok
    by (rewrite ?len_app; unfold len in *; rewrite ?repeat_length; lia).
  f_equal.
  replace (Z.to_nat off) with (Z.to_nat (len pre) + Z.to_nat (off - len pre))%nat by lia.
  rewrite Nat.add_comm, <- skipn_skipn, skipn_len_app.
  replace k with (Z.to_nat (off - len pre) + (Z.to_nat n + (k - Z.to_nat (off - len pre) - Z.to_nat n)))%nat
    by (unfold len in *; lia).
  rewrite (zeros_split (Z.to_nat (off - len pre))).
  rewrite skipn_app, skipn_all2 by (rewrite repeat_length; lia).
  rewrite repeat_length, Nat.sub_diag. cbn [app skipn].
  rewrite zeros_split, firstn_app, firstn_all2 by (rewrite repeat_length; lia).
  rewrite repeat_length, Nat.sub_diag, firstn_0. apply app_nil_r.
Qed.

(** X4.  A record read behind the end of the datagram is made of the zeros
    the receive buffer was allocated with: whenever the sixteen bytes
    from [source] lie behind the received bytes and inside the 2048-byte
    buffer, [extract_resource_record] returns the record with offset,
    type, class, TTL and rdlength 0 and address 0.0.0.0, not a
    failure. *)
Theorem record_behind_datagram_is_zero (datagram : list Z) (source : Z) :
  len datagram <= source -> source + 16 <= BUFFER_SIZE ->
  extract_resource_record (receive datagram) source = Ok zero_record.
Proof.
  intros Hs Hb. pose proof (len_nonneg datagram).
  rewrite receive_short by lia.
  unfold extract_resource_record, load_ushort, load_uint.
  rewrite !load_bytes_zeros by lia. reflexivity.
Qed.

Lemma record_behind_datagram_is_zero_witness :
  extract_resource_record (receive (firstn 19 far_pointer_response)) 19 = Ok zero_record.
Proof.
  apply (record_behind_datagram_is_zero (firstn 19 far_pointer_response) 19).
  - apply Z.leb_le. reflexivity.
  - apply Z.leb_le. reflexivity.
Defined.

Lemma answers_fault (n : nat) :
  forall (i : Z) (response : list Z) (question : dns_question),
    let base := sizeof_dns_header + get_qname_len (qname question) + 2 * FIELD_SIZE in
    0 <= i -> 0 <= base -> (0 < n)%nat ->
    len response < base + 16 * (i + Z.of_nat n) ->
    answers n i response question = Fault.
Proof.
  induction n as [|n IH]; intros i response question base Hi Hb Hn Hlen; [lia|].
  cbn [answers]. fold base.
  destruct (Z.lt_ge_cases (len response) (base + i * 16 + 16)) as [Hlt|Hge].
  - now rewrite extract_resource_record_fault by lia.
  - destruct (extract_resource_record_ok response (base + i * 16)) as (r & ->);
      [lia|lia|]. cbn [bind].
    rewrite IH; [reflexivity|lia|assumption|lia|fold base; lia].
Qed.

(** X5.  A header that declares more answers than fit the buffer makes
    [main] read outside it: once header and question are decoded, if at
    least one answer is declared and the fixed-stride offset behind the
    last declared record lies beyond the end of the buffer, the answer
    loop runs off the buffer and no result is returned. *)
Theorem too_many_answers_overrun (response : list Z) (header : dns_header)
    (fl : dns_header_flags) (question : dns_question) :
  decode_header response = Ok (header, fl) ->
  let flipped := header_bytes header ++ skipn 12 response in
  extract_question flipped sizeof_dns_header = Ok question ->
  let base := 12 + get_qname_len (qname question) + 4 in
  0 <= base -> 0 < an_count header ->
  len response < base + 16 * an_count header ->
  parse_response response = Fault.
Proof.
  intros Hh flipped Hq base Hb Han Hlen.
  unfold decode_header in Hh. unfold parse_response.
  destruct (load_header response 0) as [h0| |] eqn:Eh; cbn [bind] in *;
    try discriminate.
  apply load_header_len in Eh.
  injection Hh as <- <-.
  unfold store_header.
  rewrite store_bytes_front by (change (len (header_bytes _)) with 12; lia).
  cbn [bind]. change (Z.to_nat (len (header_bytes (flip_dns_header h0)))) with 12%nat.
  fold flipped. rewrite Hq. cbn [bind].
  assert (Hfl : len flipped = len response).
  { subst flipped. rewrite len_app. change (len (header_bytes _)) with 12.
    unfold len in *. rewrite length_skipn. lia. }
  rewrite answers_fault; [reflexivity|lia| | |].
  - unfold sizeof_dns_header, FIELD_SIZE. fold base. subst base. lia.
  - subst base. lia.
  - unfold sizeof_dns_header, FIELD_SIZE. subst base. lia.
Qed.

Lemma too_many_answers_overrun_witness :
  parse_response (receive (response_header 127 ++ [1; 97; 0; 0; 1; 0; 1])) = Fault.
Proof.
  apply (too_many_answers_overrun
           (receive (response_header 127 ++ [1; 97; 0; 0; 1; 0; 1]))
           (mk_header 1 33152 1 127 0 0) (mk_flags 0 0 1 1 0 0 0 1)
           (mk_question [97] 1 1)).
  - reflexivity.
  - reflexivity.
  - apply Z.leb_le. reflexivity.
  - apply Z.ltb_lt. reflexivity.
  - apply Z.ltb_lt. reflexivity.
Defined.

(** ** Names [extract_question] cannot decode *)

Lemma load_byte_skipn (mem : list Z) (off b : Z) :
  load_byte mem off = Ok b ->
  0 <= off <= len mem /\ exists tl, skipn (Z.to_nat off) mem = b :: tl.
Proof.
  unfold load_byte. destruct (load_bytes mem off 1) as [bs| |] eqn:E;
    cbn [bind]; try discriminate.
  apply load_bytes_inv in E. destruct E as (Hoff & _ & Hle & ->).
  destruct (skipn (Z.to_nat off) mem) as [|x tl]; [discriminate|].
  cbn [Z.to_nat Pos.to_nat Pos.iter_op Nat.add firstn].
  intros [= ->]. split; [lia|]. now exists tl.
Qed.

Lemma extract_question_root (mem : list Z) (start_pos : Z) :
  load_byte mem start_pos = Ok 0 -> extract_question mem start_pos = Fault.
Proof.
  intros H. apply load_byte_skipn in H. destruct H as (Hs & tl & Htl).
  unfold extract_question, extract_question_fuel, strlen_at.
  replace ((0 <=? start_pos) && (start_pos <=? len mem)) with true by test_true.
  rewrite Htl. reflexivity.
Qed.

(** X6.  The root name is not decodable: when the byte at [start_pos] is the
    terminator itself, the name has length 0, [malloc] is asked for
    [qname_len - 1], the largest [size_t], and returns NULL, and the
    terminator of the empty result is written through it.  No question is
    returned, whatever else the buffer holds. *)
Theorem root_name_not_decoded (mem : list Z) (start_pos : Z) :
  load_byte mem start_pos = Ok 0 -> extract_question mem start_pos = Fault.
Proof. apply extract_question_root. Qed.

Lemma root_name_not_decoded_witness :
  extract_question (receive (response_header 0 ++ [0; 0; 1; 0; 1])) 12 = Fault.
Proof.
  apply (root_name_not_decoded (receive (response_header 0 ++ [0; 0; 1; 0; 1])) 12).
  reflexivity.
Defined.

Lemma question_labels_prefix (labels : list (list Z)) :
  forall fuel pre post limit out,
    Forall (fun l => len l <= 127) labels ->
    len pre + len (wire_labels labels) < limit ->
    exists out',
      question_labels (length labels + fuel) (pre ++ wire_labels labels ++ post)
        limit (len pre) out =
      question_labels fuel (pre ++ wire_labels labels ++ post)
        limit (len pre + len (wire_labels labels)) out'.
Proof.
  induction labels as [|l ls IH]; intros fuel pre post limit out Hl Hlim.
  - exists out. cbn [wire_labels length Nat.add]. change (len []) with 0.
    now rewrite Z.add_0_r.
  - inversion Hl as [|? ? Hl1 Hl2]; subst.
    pose proof (len_nonneg l). pose proof (len_nonneg (wire_labels ls)).
    cbn [wire_labels] in *. rewrite len_app, len_cons in Hlim.
    cbn [length Nat.add]. rewrite <- app_assoc.
    rewrite question_labels_label by lia.
    destruct (IH fuel (pre ++ len l :: l) post limit
                (match out with [] => out | _ :: _ => out ++ [46] end ++ l) Hl2)
      as (out' & Hout').
    { rewrite len_app, len_cons. lia. }
    exists out'. rewrite Hout'. rewrite <- !app_assoc. cbn [app].
    now replace (len (pre ++ len l :: l) + len (wire_labels ls))
      with (len pre + len ((len l :: l) ++ wire_labels ls))
      by (rewrite !len_app, !len_cons; lia).
Qed.

Lemma find_nul_skip (w s : list Z) :
  nul_free w -> find_nul (w ++ s) = option_map (Nat.add (length w)) (find_nul s).
Proof.
  induction 1 as [|c w Hc _ IH].
  - cbn. now destruct (find_nul s).
  - cbn [find_nul app length]. destruct (Z.eqb_spec c 0); [contradiction|].
    rewrite IH. now destruct (find_nul s).
Qed.

Lemma wire_labels_nul_free_gen (labels : list (list Z)) :
  Forall (fun l => 1 <= len l <= 127 /\ nul_free l) labels ->
  nul_free (wire_labels labels).
Proof.
  induction 1 as [|x xs [Hx1 Hx2] _ IH]; [constructor|].
  cbn [wire_labels]. apply Forall_app. split; [|exact IH].
  constructor; [lia|exact Hx2].
Qed.

Lemma extract_question_top_bit (labels : list (list Z)) (pre rest : list Z)
    (b : Z) :
  Forall (fun l => 1 <= len l <= 127 /\ nul_free l) labels ->
  128 <= b <= 255 ->
  len (pre ++ wire_labels labels ++ b :: rest) <= 32767 ->
  extract_question (pre ++ wire_labels labels ++ b :: rest) (len pre) = Fault.
Proof.
  intros Hl Hb Hlen.
  set (w := wire_labels labels) in *. set (mem := pre ++ w ++ b :: rest) in *.
  assert (Hnf : nul_free w) by now apply wire_labels_nul_free_gen.
  pose proof (len_nonneg pre) as Hp. pose proof (len_nonneg w) as Hw.
  unfold extract_question, extract_question_fuel.
  pose proof (strlen_at_not_out_of_fuel mem (len pre)) as Hs.
  destruct (strlen_at mem (len pre)) as [n| |] eqn:En; cbn [bind];
    [|reflexivity|contradiction].
  assert (Hn : len w + 1 <= n <= len mem).
  { pose proof (strlen_at_inv _ _ _ En) as (_ & _ & Hle).
    split; [|lia]. clear Hle. unfold strlen_at in En.
    destruct (_ && _); [|discriminate].
    subst mem. rewrite skipn_len_app, find_nul_skip in En by assumption.
    cbn [find_nul] in En. destruct (Z.eqb_spec b 0); [lia|].
    destruct (find_nul rest) as [k|]; cbn [option_map] in En; [|discriminate].
    injection En as <-. unfold len. lia. }
  rewrite to_short_small by lia.
  unfold allocate. rewrite to_size_t_small by lia.
  replace (n - 1 <=? PTRDIFF_MAX) with true by test_true.
  cbn [bind].
  assert (Hfuel : exists fuel, length mem = (length labels + S fuel)%nat).
  { exists (length mem - length labels - 1)%nat.
    pose proof (wire_labels_length labels). fold w in H.
    subst mem. rewrite !length_app in *. cbn [length]. lia. }
  destruct Hfuel as (fuel & ->).
  subst mem w.
  destruct (question_labels_prefix labels (S fuel) pre (b :: rest) (len pre + n) [])
    as (out' & ->).
  { revert Hl. apply Forall_weaken. intros l [H _]. lia. }
  { lia. }
  rewrite question_labels_step by lia.
  rewrite app_assoc.
  rewrite (load_byte_at (pre ++ wire_labels labels) rest b) by (now rewrite len_app).
  cbn [bind]. unfold char_value.
  replace (b <? 128) with false by test_false.
  rewrite to_size_t_negative by lia.
  rewrite load_bytes_fault; [reflexivity|].
  right. rewrite <- app_assoc. lia.
Qed.

(** X7.  A length byte with its top bit set ends the decoding: when
    [extract_question] has walked any number of well-formed labels and
    the next length byte is 128 or more (a compression pointer, or the
    reserved pattern 10), the byte is a negative [char], [memcpy] is
    asked for more than 2^63 bytes, and the read leaves the buffer.  So a
    name that is a pointer, or that ends in one, is never decoded. *)
Theorem top_bit_length_not_decoded (labels : list (list Z)) (pre rest : list Z)
    (b : Z) :
  Forall (fun l => 1 <= len l <= 127 /\ nul_free l) labels ->
  128 <= b <= 255 ->
  len (pre ++ wire_labels labels ++ b :: rest) <= 32767 ->
  extract_question (pre ++ wire_labels labels ++ b :: rest) (len pre) = Fault.
Proof. apply extract_question_top_bit. Qed.

Lemma top_bit_length_not_decoded_witness :
  extract_question
    (firstn 33 compressed_response ++
     wire_labels [bytes_of_string "mail"] ++ 192 :: [12; 0; 1; 0; 1])
    (len (firstn 33 compressed_response)) = Fault.
Proof.
  apply (top_bit_length_not_decoded [bytes_of_string "mail"]
           (firstn 33 compressed_response) [12; 0; 1; 0; 1] 192).
  - repeat constructor; cbn; lia.
  - lia.
  - apply Z.leb_le. reflexivity.
Defined.

(** ** What [hostname_to_qname] accepts *)

Lemma c_str_zero_shorter (s rest : list Z) :
  In 0 s -> (length (c_str (s ++ rest)) < length s)%nat.
Proof.
  induction s as [|c s IH]; intros Hin; [destruct Hin|].
  cbn [c_str app length]. destruct (Z.eqb_spec c 0) as [->|Hc]; [cbn; lia|].
  destruct Hin as [->|Hin]; [contradiction|].
  specialize (IH Hin). cbn [length]. lia.
Qed.

Lemma written_has_zero (ps : list (list Z)) :
  Exists (fun l => len l mod 256 = 0) ps -> In 0 (written ps).
Proof.
  induction 1 as [p ps Hp|p ps _ IH]; rewrite written_cons; apply in_or_app.
  - left. left. exact Hp.
  - now right.
Qed.

Lemma written_nul_free (ps : list (list Z)) :
  Forall (fun l => len l mod 256 <> 0) ps -> Forall nul_free ps ->
  nul_free (written ps).
Proof.
  induction 1 as [|p ps Hp _ IH]; intros Hnf; [constructor|].
  inversion Hnf as [|? ? Hp' Hnf']; subst.
  rewrite written_cons. apply Forall_app. split; [|now apply IH].
  constructor; assumption.
Qed.

Lemma pieces_nul_free (s : list Z) : nul_free s -> Forall nul_free (split_dots s).
Proof.
  intros Hs. apply Forall_forall. intros t Ht.
  apply Forall_forall. intros c Hc.
  eapply (proj1 (Forall_forall _ _) Hs), split_dots_chars; eassumption.
Qed.

Lemma no_empty_piece (ps : list (list Z)) :
  Forall (fun l => len l mod 256 <> 0) ps -> ~ In [] ps.
Proof.
  intros H Hin. apply (proj1 (Forall_forall _ _) H) in Hin. now apply Hin.
Qed.

Lemma hostname_to_qname_pieces (host : list Z) :
  strlen host + 2 <= 32767 ->
  (Exists (fun l => len l mod 256 = 0) (split_dots (c_str host)) ->
   hostname_to_qname host = Ok None) /\
  (Forall (fun l => len l mod 256 <> 0) (split_dots (c_str host)) ->
   hostname_to_qname host = Ok (Some (written (split_dots (c_str host)) ++ [0]))).
Proof.
  intros Hs. pose proof (strlen_nonneg host) as H0.
  pose proof (written_split_dots_len (c_str host)) as Hlen.
  fold (strlen host) in Hlen.
  split.
  - intros Hex.
    destruct (in_dec (list_eq_dec Z.eq_dec) [] (split_dots (c_str host))) as [Hin|Hin].
    { now apply hostname_to_qname_empty_label. }
    rewrite hostname_to_qname_spec by assumption.
    unfold tokens. rewrite filter_nonempty_id by assumption.
    set (W := written (split_dots (c_str host))) in *.
    rewrite Hlen. replace (strlen host + 2 - (strlen host + 1)) with 1 by lia.
    pose proof (c_str_zero_shorter W (repeat 0 (Z.to_nat 1)) (written_has_zero _ Hex)).
    now replace (strlen (W ++ repeat 0 (Z.to_nat 1)) + 1 <? strlen host + 2) with true
      by (symmetry; apply Z.ltb_lt; unfold strlen, len in *; lia).
  - intros Hall.
    rewrite hostname_to_qname_spec by assumption.
    unfold tokens. rewrite filter_nonempty_id by now apply no_empty_piece.
    set (W := written (split_dots (c_str host))) in *.
    rewrite Hlen. replace (strlen host + 2 - (strlen host + 1)) with 1 by lia.
    change (repeat 0 (Z.to_nat 1)) with [0].
    assert (Hnf : nul_free W)
      by (apply written_nul_free; [assumption|apply pieces_nul_free, c_str_is_nul_free]).
    unfold strlen at 1. rewrite c_str_app_nul by assumption.
    now replace (len W + 1 <? strlen host + 2) with false by test_false.
Qed.

(** X8.  The verdict of [hostname_to_qname], exactly.  For every host string
    of at most 32765 bytes: if one of its dot-separated pieces has a
    length that is a multiple of 256 (the empty piece, or a label of 256,
    512, ... bytes, whose length byte wraps to 0 and cuts the encoded
    string short), the function returns NULL; otherwise it returns every
    piece behind its length byte, then the terminator, and nothing
    else. *)
Theorem hostname_to_qname_verdict (host : list Z) :
  strlen host + 2 <= 32767 ->
  (Exists (fun l => len l mod 256 = 0) (split_dots (c_str host)) ->
   hostname_to_qname host = Ok None) /\
  (Forall (fun l => len l mod 256 <> 0) (split_dots (c_str host)) ->
   hostname_to_qname host = Ok (Some (written (split_dots (c_str host)) ++ [0]))).
Proof. apply hostname_to_qname_pieces. Qed.

Lemma hostname_to_qname_verdict_witness :
  hostname_to_qname (bytes_of_string "a." ++ repeat 97 256) = Ok None /\
  hostname_to_qname (bytes_of_string "a.b") =
  Ok (Some (written (split_dots (c_str (bytes_of_string "a.b"))) ++ [0])).
Proof.
  split.
  - apply (hostname_to_qname_verdict (bytes_of_string "a." ++ repeat 97 256)).
    + apply Z.leb_le. reflexivity.
    + apply Exists_cons_tl, Exists_cons_hd. reflexivity.
  - apply (hostname_to_qname_verdict (bytes_of_string "a.b")).
    + apply Z.leb_le. reflexivity.
    + repeat constructor; discriminate.
Defined.

Lemma accepted_qname (host q : list Z) :
  strlen host + 2 <= 32767 ->
  hostname_to_qname host = Ok (Some q) ->
  q = written (split_dots (c_str host)) ++ [0] /\
  nul_free (written (split_dots (c_str host))) /\
  len (written (split_dots (c_str host))) = strlen host + 1.
Proof.
  intros Hs Hq. pose proof (hostname_to_qname_pieces host Hs) as [Hrej Hacc].
  pose proof (written_split_dots_len (c_str host)) as Hlen.
  fold (strlen host) in Hlen.
  assert (Hall : Forall (fun l => len l mod 256 <> 0) (split_dots (c_str host))).
  { apply Forall_forall. intros l Hl Hm.
    rewrite Hrej in Hq; [discriminate|].
    apply Exists_exists. now exists l. }
  rewrite (Hacc Hall) in Hq. apply Ok_Some_inj in Hq. subst q.
  split; [reflexivity|]. split; [|assumption].
  apply written_nul_free; [assumption|apply pieces_nul_free, c_str_is_nul_free].
Qed.

(** X9.  [get_qname_len] is exact whenever the host is accepted: for every
    host string of at most 32765 bytes that [hostname_to_qname] does not
    reject, the buffer it returns has [get_qname_len host] bytes,
    strlen(host) + 2, the encoded name fills all but the last of them
    with non-NUL bytes, and the last is the terminator. *)
Theorem accepted_qname_fills_buffer (host q : list Z) :
  strlen host + 2 <= 32767 ->
  hostname_to_qname host = Ok (Some q) ->
  len q = get_qname_len host /\
  get_qname_len host = strlen host + 2 /\
  strlen q + 1 = len q /\
  exists name, q = name ++ [0] /\ nul_free name.
Proof.
  intros Hs Hq. pose proof (strlen_nonneg host).
  destruct (accepted_qname host q Hs Hq) as (-> & Hnf & Hlen).
  set (W := written (split_dots (c_str host))) in *.
  assert (Hstr : strlen (W ++ [0]) = len W)
    by (unfold strlen; now rewrite c_str_app_nul).
  unfold get_qname_len. rewrite to_short_small by lia.
  rewrite Hstr, len_app. change (len [0]) with 1.
  repeat split; try lia. exists W. split; [reflexivity|assumption].
Qed.

Lemma accepted_qname_fills_buffer_witness :
  len (7 :: bytes_of_string "example" ++ 3 :: bytes_of_string "com" ++ [0]) =
    get_qname_len example_host /\
  get_qname_len example_host = strlen example_host + 2 /\
  strlen (7 :: bytes_of_string "example" ++ 3 :: bytes_of_string "com" ++ [0]) + 1 =
    len (7 :: bytes_of_string "example" ++ 3 :: bytes_of_string "com" ++ [0]) /\
  exists name,
    7 :: bytes_of_string "example" ++ 3 :: bytes_of_string "com" ++ [0] = name ++ [0] /\
    nul_free name.
Proof.
  apply (accepted_qname_fills_buffer example_host).
  - apply Z.leb_le. reflexivity.
  - reflexivity.
Defined.

(** X10.  A host string of 32766 to 65533 bytes makes the program write
    through a NULL pointer: strlen(host) + 2 no longer fits the [short]
    [get_qname_len] returns, the negative length becomes a request above
    PTRDIFF_MAX, [calloc] fails, and the result is used unchecked.  No
    qname and no message is produced. *)
Theorem long_host_null_write (host uninit : list Z) :
  32766 <= strlen host <= 65533 ->
  get_qname_len host < 0 /\
  hostname_to_qname host = Fault /\
  build_query uninit host = Fault.
Proof.
  intros H.
  assert (Hq : get_qname_len host = strlen host + 2 - 65536).
  { unfold get_qname_len, to_short. cbv zeta.
    replace ((strlen host + 2) mod 65536) with (strlen host + 2)
      by (symmetry; apply Z.mod_small; lia).
    now replace (strlen host + 2 <? 32768) with false by test_false. }
  assert (Hf : hostname_to_qname host = Fault).
  { unfold hostname_to_qname, calloc. rewrite Hq.
    replace (to_size_t (strlen host + 2 - 65536))
      with (strlen host + 2 - 65536 + 18446744073709551616)
      by (unfold to_size_t;
          apply (Z.mod_unique _ 18446744073709551616 (-1)); lia).
    now replace (strlen host + 2 - 65536 + 18446744073709551616 <=? PTRDIFF_MAX)
      with false by (unfold PTRDIFF_MAX; test_false). }
  split; [lia|]. split; [exact Hf|].
  unfold build_query. now rewrite Hf.
Qed.

Lemma long_host_null_write_witness :
  get_qname_len overlong_host < 0 /\
  hostname_to_qname overlong_host = Fault /\
  build_query [] overlong_host = Fault.
Proof.
  apply (long_host_null_write overlong_host []).
  split; apply Z.leb_le; vm_compute; reflexivity.
Defined.

(** ** The size of the query *)

(** X11.  [hydrate_message] needs 17 + strlen(qname) bytes and touches no
    others: on a message at least that long it writes the header, the
    name with its terminator, type 1 and class 1 into the first
    17 + strlen(qname) bytes and leaves every later byte as it was; on a
    shorter one it writes past the end. *)
Theorem hydrate_message_extent (message qname : list Z) :
  (17 + strlen qname <= len message ->
   hydrate_message message qname =
   Ok (query_header_wire ++ c_str qname ++ [0] ++ be16 1 ++ be16 1 ++
       skipn (Z.to_nat (17 + strlen qname)) message)) /\
  (len message < 17 + strlen qname -> hydrate_message message qname = Fault).
Proof.
  split; [apply hydrate_message_spec|apply hydrate_message_short].
Qed.

Lemma hydrate_message_extent_witness :
  hydrate_message (repeat 7 20) [1; 97; 0] =
    Ok (query_header_wire ++ c_str [1; 97; 0] ++ [0] ++ be16 1 ++ be16 1 ++
        skipn (Z.to_nat (17 + strlen [1; 97; 0])) (repeat 7 20)) /\
  hydrate_message (repeat 7 18) [1; 97; 0] = Fault.
Proof.
  split.
  - apply (hydrate_message_extent (repeat 7 20) [1; 97; 0]).
    apply Z.leb_le. reflexivity.
  - apply (hydrate_message_extent (repeat 7 18) [1; 97; 0]).
    apply Z.ltb_lt. reflexivity.
Defined.

Lemma build_query_accepted (host q uninit : list Z) :
  strlen host + 2 <= 32767 ->
  hostname_to_qname host = Ok (Some q) ->
  (strlen host + 18 <= 32767 -> strlen host + 18 <= len uninit ->
   exists message,
     build_query uninit host = Ok (Some message) /\
     message = query_header_wire ++ q ++ be16 1 ++ be16 1 /\
     len message = strlen host + 18) /\
  (32767 < strlen host + 18 -> build_query uninit host = Fault).
Proof.
  intros Hs Hq. pose proof (strlen_nonneg host) as H0.
  destruct (accepted_qname host q Hs Hq) as (Hqw & Hnf & Hlen).
  set (W := written (split_dots (c_str host))) in *.
  assert (Hstr : strlen q = strlen host + 1)
    by (subst q; unfold strlen at 1; now rewrite c_str_app_nul).
  assert (Hc : c_str q = W) by (subst q; now apply c_str_app_nul).
  unfold build_query. rewrite Hq. cbn [bind].
  unfold message_len, malloc, sizeof_dns_header, FIELD_SIZE. rewrite Hstr.
  split.
  - intros Hfit Hheap.
    rewrite to_short_small, to_size_t_small by lia.
    replace ((12 + (strlen host + 1) + 1 + 2 * 2 <=? PTRDIFF_MAX) &&
             (12 + (strlen host + 1) + 1 + 2 * 2 <=? len uninit))
      with true by test_true.
    cbn [bind]. set (m := firstn _ uninit).
    assert (Hm : len m = strlen host + 18)
      by (subst m; unfold len in *; rewrite length_firstn; lia).
    rewrite hydrate_message_spec by lia.
    cbn [bind]. rewrite Hc, Hstr.
    rewrite skipn_all2 by (unfold len in *; lia).
    eexists. split; [reflexivity|]. split.
    + rewrite app_nil_r, Hqw, <- !app_assoc. reflexivity.
    + rewrite app_nil_r, !len_app, Hlen.
      change (len query_header_wire) with 12. change (len [0]) with 1.
      change (len (be16 1)) with 2. lia.
  - intros Hover.
    replace (12 + (strlen host + 1) + 1 + 2 * 2) with (strlen host + 18) by lia.
    replace (to_short (strlen host + 18)) with (strlen host + 18 - 65536).
    2: { unfold to_short. cbv zeta.
         replace ((strlen host + 18) mod 65536)
           with (strlen host + 18) by (symmetry; apply Z.mod_small; lia).
         now replace (strlen host + 18 <? 32768) with false by test_false. }
    replace (to_size_t (strlen host + 18 - 65536))
      with (strlen host + 18 - 65536 + 18446744073709551616)
      by (unfold to_size_t; apply (Z.mod_unique _ 18446744073709551616 (-1)); lia).
    now replace ((strlen host + 18 - 65536 + 18446744073709551616 <=? PTRDIFF_MAX) &&
                 (strlen host + 18 - 65536 + 18446744073709551616 <=? len uninit))
      with false by (unfold PTRDIFF_MAX; test_false).
Qed.

(** X12.  The length [main] computes for the message is the length it needs,
    as long as it fits a [short]: for every host string that
    [hostname_to_qname] accepts, a host of at most 32749 bytes gives a
    message of exactly strlen(host) + 18 bytes, header, name of
    strlen(host) + 2 bytes, type and class; a longer accepted host makes
    [message_len] negative, [malloc] fail, and the message be written
    through NULL. *)
Theorem query_length (host q uninit : list Z) :
  strlen host + 2 <= 32767 ->
  hostname_to_qname host = Ok (Some q) ->
  (strlen host + 18 <= 32767 -> strlen host + 18 <= len uninit ->
   exists message,
     build_query uninit host = Ok (Some message) /\
     message = query_header_wire ++ q ++ be16 1 ++ be16 1 /\
     len message = strlen host + 18) /\
  (32767 < strlen host + 18 -> build_query uninit host = Fault).
Proof. apply build_query_accepted. Qed.

Lemma query_length_witness :
  exists message,
    build_query (repeat 0 83) long_label_host = Ok (Some message) /\
    message = query_header_wire ++ (64 :: long_label_host ++ [0]) ++ be16 1 ++ be16 1 /\
    len message = strlen long_label_host + 18.
Proof.
  apply (query_length long_label_host (64 :: long_label_host ++ [0]) (repeat 0 83)).
  - apply Z.leb_le. reflexivity.
  - reflexivity.
  - apply Z.leb_le. reflexivity.
  - apply Z.leb_le. reflexivity.
Defined.

(** ** Where the answers start, and when the stride is right *)

Lemma dotted_len (labels : list (list Z)) :
  labels <> [] -> len (dotted labels) + 1 = len (wire_labels labels).
Proof.
  intros Hne. induction labels as [|l ls IH]; [contradiction|].
  destruct ls as [|l' ls].
  - cbn [dotted wire_labels]. rewrite app_nil_r, len_cons. lia.
  - change (dotted (l :: l' :: ls)) with (l ++ 46 :: dotted (l' :: ls)).
    change (wire_labels (l :: l' :: ls)) with ((len l :: l) ++ wire_labels (l' :: ls)).
    rewrite !len_app, !len_cons. specialize (IH ltac:(discriminate)). lia.
Qed.

Lemma get_qname_len_dotted (labels : list (list Z)) :
  labels <> [] -> Forall nul_free labels ->
  len (wire_labels labels) + 1 <= 32767 ->
  get_qname_len (dotted labels) = len (wire_labels labels) + 1.
Proof.
  intros Hne Hnf Hlen. unfold get_qname_len, strlen.
  rewrite c_str_nul_free by now apply dotted_labels_nul_free.
  pose proof (dotted_len labels Hne). pose proof (len_nonneg (dotted labels)).
  rewrite to_short_small by lia. lia.
Qed.

Lemma extract_question_wire (l : list Z) (ls : list (list Z)) (pre rest : list Z)
    (t0 t1 c0 c1 : Z) :
  Forall (fun l => 1 <= len l <= 127 /\ nul_free l) (l :: ls) ->
  len (wire_labels (l :: ls)) + 1 <= 32767 ->
  extract_question (pre ++ question_wire (l :: ls) t0 t1 c0 c1 ++ rest) (len pre) =
    Ok {| qname := dotted (l :: ls);
          qtype := ntohs (le_value [t0; t1]);
          qclass := ntohs (le_value [c0; c1]) |} /\
  len pre + get_qname_len (dotted (l :: ls)) + 2 * FIELD_SIZE =
    len (pre ++ question_wire (l :: ls) t0 t1 c0 c1).
Proof.
  intros Hl Hlen. split.
  - unfold question_wire. rewrite <- app_assoc. cbn [app].
    apply extract_question_labels; [assumption|lia].
  - rewrite get_qname_len_dotted;
      [|discriminate|revert Hl; apply Forall_weaken; tauto|assumption].
    unfold question_wire, FIELD_SIZE. rewrite !len_app, !len_cons.
    change (len []) with 0. lia.
Qed.

(** X13.  The offset [main] computes for the first answer is right for every
    well-formed question: when the question name is a sequence of labels
    of 1 to 127 NUL-free bytes, [extract_question] returns the dotted
    name, and the start of the question plus
    [get_qname_len] of that name plus the four type and class bytes is
    exactly the first byte behind the question on the wire. *)
Theorem first_answer_offset (l : list Z) (ls : list (list Z)) (pre rest : list Z)
    (t0 t1 c0 c1 : Z) :
  Forall (fun l => 1 <= len l <= 127 /\ nul_free l) (l :: ls) ->
  len (wire_labels (l :: ls)) + 1 <= 32767 ->
  exists question,
    extract_question (pre ++ question_wire (l :: ls) t0 t1 c0 c1 ++ rest) (len pre) =
      Ok question /\
    qname question = dotted (l :: ls) /\
    len pre + get_qname_len (qname question) + 2 * FIELD_SIZE =
      len (pre ++ question_wire (l :: ls) t0 t1 c0 c1).
Proof.
  intros Hl Hlen.
  destruct (extract_question_wire l ls pre rest t0 t1 c0 c1 Hl Hlen) as [Hq Hoff].
  eexists. split; [exact Hq|]. split; [reflexivity|exact Hoff].
Qed.

Lemma first_answer_offset_witness :
  exists question,
    extract_question
      (response_header 1 ++
       question_wire [bytes_of_string "www"; bytes_of_string "example";
                      bytes_of_string "com"] 0 1 0 1 ++
       [192; 12]) (len (response_header 1)) = Ok question /\
    qname question =
      dotted [bytes_of_string "www"; bytes_of_string "example"; bytes_of_string "com"] /\
    len (response_header 1) + get_qname_len (qname question) + 2 * FIELD_SIZE =
      len (response_header 1 ++
           question_wire [bytes_of_string "www"; bytes_of_string "example";
                          bytes_of_string "com"] 0 1 0 1).
Proof.
  apply (first_answer_offset (bytes_of_string "www")
           [bytes_of_string "example"; bytes_of_string "com"]
           (response_header 1) [192; 12] 0 1 0 1).
  - repeat constructor; cbn; lia.
  - apply Z.leb_le. reflexivity.
Defined.

Lemma answers_blocks (recs : list (list Z)) :
  forall (pre rest : list Z) (i : Z) (question : dns_question),
    Forall (fun bs => len bs = 16) recs ->
    sizeof_dns_header + get_qname_len (qname question) + 2 * FIELD_SIZE + i * 16 =
      len pre ->
    exists records,
      answers (length recs) i (pre ++ concat recs ++ rest) question = Ok records /\
      Forall2 (fun bs r => extract_resource_record bs 0 = Ok r) recs records.
Proof.
  induction recs as [|bs recs IH]; intros pre rest i question Hl Hoff.
  - exists []. split; [reflexivity|constructor].
  - inversion Hl as [|? ? Hbs Hrecs]; subst.
    cbn [length answers concat]. rewrite Hoff, <- app_assoc.
    rewrite extract_resource_record_frame by assumption.
    destruct (extract_resource_record_ok bs 0) as (r & Hr); [lia|lia|].
    rewrite Hr. cbn [bind].
    destruct (IH (pre ++ bs) rest (i + 1) question Hrecs) as (records & Hrs & Hall).
    { rewrite len_app. lia. }
    rewrite <- app_assoc in Hrs. rewrite Hrs. cbn [bind].
    exists (r :: records). split; [reflexivity|]. now constructor.
Qed.

Lemma parse_response_blocks (h : dns_header) (l : list Z) (ls : list (list Z))
    (t0 t1 c0 c1 : Z) (recs : list (list Z)) (rest : list Z) :
  header_in_range h ->
  an_count h = Z.of_nat (length recs) ->
  Forall (fun l => 1 <= len l <= 127 /\ nul_free l) (l :: ls) ->
  len (wire_labels (l :: ls)) + 1 <= 32767 ->
  Forall (fun bs => len bs = 16) recs ->
  exists records,
    parse_response
      (header_bytes (flip_dns_header h) ++
       question_wire (l :: ls) t0 t1 c0 c1 ++ concat recs ++ rest) =
    Ok (h, get_flags (flags h),
        {| qname := dotted (l :: ls);
           qtype := ntohs (le_value [t0; t1]);
           qclass := ntohs (le_value [c0; c1]) |},
        records) /\
    Forall2 (fun bs r => extract_resource_record bs 0 = Ok r) recs records.
Proof.
  intros Hh Han Hl Hlen Hrecs.
  set (body := question_wire (l :: ls) t0 t1 c0 c1 ++ concat recs ++ rest).
  unfold parse_response.
  rewrite load_header_bytes by apply flip_in_range.
  cbn [bind]. rewrite flip_involutive by assumption.
  unfold store_header.
  change (header_bytes (flip_dns_header h) ++ body)
    with ([] ++ header_bytes (flip_dns_header h) ++ body).
  rewrite (store_bytes_at [] _ body (header_bytes h)) by reflexivity.
  cbn [bind]. rewrite app_nil_l.
  change sizeof_dns_header with (len (header_bytes h)).
  destruct (extract_question_wire l ls (header_bytes h) (concat recs ++ rest)
              t0 t1 c0 c1 Hl Hlen) as [Hq Hoff].
  subst body. rewrite Hq. cbn [bind].
  rewrite Han, Nat2Z.id.
  destruct (answers_blocks recs (header_bytes h ++ question_wire (l :: ls) t0 t1 c0 c1)
              rest 0 (mk_question (dotted (l :: ls)) (ntohs (le_value [t0; t1]))
                        (ntohs (le_value [c0; c1]))) Hrecs)
    as (records & Hrs & Hall).
  { cbn [qname]. change sizeof_dns_header with (len (header_bytes h)). lia. }
  rewrite <- app_assoc in Hrs. rewrite Hrs. cbn [bind].
  exists records. split; [reflexivity|assumption].
Qed.

(** X14.  The fixed stride is right for the responses the program is written
    for: when the question is well formed and every answer occupies
    sixteen bytes on the wire (a two-byte name, ten bytes of fields, four
    bytes of rdata), as many answers as the header declares, then [main]
    returns the header as sent, the dotted question name, and for each
    answer, in order, exactly the record its own sixteen bytes give. *)
Theorem sixteen_byte_answers_decoded (h : dns_header) (l : list Z)
    (ls : list (list Z)) (t0 t1 c0 c1 : Z) (recs : list (list Z)) (rest : list Z) :
  header_in_range h ->
  an_count h = Z.of_nat (length recs) ->
  Forall (fun l => 1 <= len l <= 127 /\ nul_free l) (l :: ls) ->
  len (wire_labels (l :: ls)) + 1 <= 32767 ->
  Forall (fun bs => len bs = 16) recs ->
  exists question records,
    parse_response
      (header_bytes (flip_dns_header h) ++
       question_wire (l :: ls) t0 t1 c0 c1 ++ concat recs ++ rest) =
    Ok (h, get_flags (flags h), question, records) /\
    qname question = dotted (l :: ls) /\
    Forall2 (fun bs r => extract_resource_record bs 0 = Ok r) recs records.
Proof.
  intros Hh Han Hl Hlen Hrecs.
  destruct (parse_response_blocks h l ls t0 t1 c0 c1 recs rest Hh Han Hl Hlen Hrecs)
    as (records & Hp & Hall).
  eexists _, records. split; [exact Hp|]. split; [reflexivity|exact Hall].
Qed.

Lemma sixteen_byte_answers_decoded_witness :
  exists question records,
    parse_response
      (header_bytes (flip_dns_header (mk_header 1 33152 1 2 0 0)) ++
       question_wire [bytes_of_string "example"; bytes_of_string "com"] 0 1 0 1 ++
       concat two_address_records ++ []) =
    Ok (mk_header 1 33152 1 2 0 0, get_flags 33152, question, records) /\
    qname question = dotted [bytes_of_string "example"; bytes_of_string "com"] /\
    Forall2 (fun bs r => extract_resource_record bs 0 = Ok r)
      two_address_records records.
Proof.
  apply (sixteen_byte_answers_decoded (mk_header 1 33152 1 2 0 0)
           (bytes_of_string "example") [bytes_of_string "com"] 0 1 0 1
           two_address_records []).
  - unfold header_in_range, is_ushort. cbn. lia.
  - reflexivity.
  - repeat constructor; cbn; lia.
  - apply Z.leb_le. reflexivity.
  - repeat constructor.
Defined.

(** X15.  The two halves of [main] agree: the query built for a valid name,
    received back unchanged in the 2048-byte buffer, is parsed into id 1,
    rd = 1 and every other flag 0, one question with the original dotted
    name, type 1 and class 1, and no answers. *)
Theorem query_parses_back (labels : list (list Z)) (uninit : list Z) :
  valid_name labels ->
  len (wire_labels labels) + 17 <= len uninit ->
  exists message,
    build_query uninit (dotted labels) = Ok (Some message) /\
    parse_response (receive message) =
    Ok (mk_header 1 256 1 0 0 0, query_flags,
        {| qname := dotted labels; qtype := 1; qclass := 1 |}, []).
Proof.
  intros Hv Hu. destruct (valid_name_labels labels Hv) as [He Hd].
  destruct Hv as (Hne & _ & Hlen).
  pose proof (len_nonneg (wire_labels labels)) as Hw0.
  pose proof (dotted_len labels Hne) as Hdl.
  assert (Hnf : nul_free (dotted labels))
    by (apply dotted_labels_nul_free; revert Hd; apply Forall_weaken; tauto).
  assert (Hs : strlen (dotted labels) = len (dotted labels))
    by (unfold strlen; now rewrite c_str_nul_free).
  destruct (build_query_accepted (dotted labels) (wire_labels labels ++ [0]) uninit)
    as [Hbuild _]; [lia|apply hostname_to_qname_labels; (assumption || lia)|].
  destruct Hbuild as (message & Hb & -> & Hml); [lia|lia|].
  eexists. split; [exact Hb|].
  rewrite receive_short by (unfold BUFFER_SIZE; lia).
  destruct labels as [|l ls]; [contradiction|].
  destruct (parse_response_blocks (mk_header 1 256 1 0 0 0) l ls 0 1 0 1 []
              (repeat 0 (Z.to_nat (BUFFER_SIZE -
                 len (query_header_wire ++ (wire_labels (l :: ls) ++ [0]) ++
                      be16 1 ++ be16 1)))))
    as (records & Hp & Hall);
    [unfold header_in_range, is_ushort; cbn; lia|reflexivity|assumption|lia|constructor|].
  inversion Hall; subst.
  unfold question_wire in Hp. cbn [concat] in Hp.
  rewrite <- !app_assoc in *. cbn [app] in *. exact Hp.
Qed.

Lemma query_parses_back_witness :
  exists message,
    build_query (repeat 0 40)
      (dotted [bytes_of_string "example"; bytes_of_string "com"]) = Ok (Some message) /\
    parse_response (receive message) =
    Ok (mk_header 1 256 1 0 0 0, query_flags,
        {| qname := dotted [bytes_of_string "example"; bytes_of_string "com"];
           qtype := 1; qclass := 1 |}, []).
Proof.
  apply (query_parses_back [bytes_of_string "example"; bytes_of_string "com"]
           (repeat 0 40)).
  - unfold valid_name, valid_label. split; [discriminate|]. split.
    + repeat constructor; cbn; lia.
    + cbn. lia.
  - cbn. lia.
Defined.

(** ** How far the round trip reaches *)

Lemma wire_labels_app (a b : list (list Z)) :
  wire_labels (a ++ b) = wire_labels a ++ wire_labels b.
Proof.
  induction a as [|l a IH]; [reflexivity|].
  cbn [wire_labels app]. now rewrite IH, <- app_assoc.
Qed.

(** X16.  The round trip holds for labels of up to 127 bytes, not only up to
    63: for every name of one or more labels of 1 to 127 bytes without
    NUL or dot, at most 32767 bytes once encoded, [hostname_to_qname]
    returns the length-prefixed labels and [extract_question] on them
    returns the original dotted name. *)
Theorem name_round_trip_127 (labels : list (list Z)) (pre rest : list Z)
    (t0 t1 c0 c1 : Z) :
  labels <> [] ->
  Forall (fun l => 1 <= len l <= 127 /\ Forall label_char l) labels ->
  len (wire_labels labels) + 1 <= 32767 ->
  hostname_to_qname (dotted labels) = Ok (Some (wire_labels labels ++ [0])) /\
  extract_question (pre ++ (wire_labels labels ++ [0]) ++ t0 :: t1 :: c0 :: c1 :: rest)
    (len pre) =
  Ok {| qname := dotted labels;
        qtype := ntohs (le_value [t0; t1]);
        qclass := ntohs (le_value [c0; c1]) |}.
Proof.
  intros Hne Hl Hlen. split.
  - apply hostname_to_qname_labels; [assumption| |assumption].
    revert Hl. apply Forall_weaken. intros l [H1 H2]. split; [lia|exact H2].
  - destruct labels as [|l ls]; [contradiction|].
    rewrite <- app_assoc. cbn [app].
    apply extract_question_labels; [|lia].
    revert Hl. apply Forall_weaken. intros x [H1 H2].
    split; [lia|now apply label_chars_nul_free].
Qed.

Lemma name_round_trip_127_witness :
  hostname_to_qname (dotted [long_label_host; bytes_of_string "com"]) =
    Ok (Some (wire_labels [long_label_host; bytes_of_string "com"] ++ [0])) /\
  extract_question
    (query_header_wire ++
     (wire_labels [long_label_host; bytes_of_string "com"] ++ [0]) ++
     0 :: 1 :: 0 :: 1 :: []) (len query_header_wire) =
  Ok {| qname := dotted [long_label_host; bytes_of_string "com"];
        qtype := ntohs (le_value [0; 1]);
        qclass := ntohs (le_value [0; 1]) |}.
Proof.
  apply (name_round_trip_127 [long_label_host; bytes_of_string "com"]
           query_header_wire [] 0 1 0 1).
  - discriminate.
  - constructor; [|repeat constructor; cbn; lia]. split; [cbn; lia|].
    apply Forall_forall. intros c Hc. apply repeat_spec in Hc. subst c.
    unfold label_char. lia.
  - apply Z.leb_le. reflexivity.
Defined.

(** X17.  From 128 bytes on, a label survives encoding but not decoding: a
    name whose labels are 1 to 255 bytes long is encoded by
    [hostname_to_qname], yet if one label has 128 bytes or more (behind
    any number of labels of at most 127), its length byte is a negative
    [char] to [extract_question], which reads outside the buffer instead
    of returning the name. *)
Theorem long_label_not_decodable (before after : list (list Z)) (l pre rest : list Z) :
  Forall (fun l => 1 <= len l <= 127 /\ Forall label_char l) before ->
  128 <= len l <= 255 -> Forall label_char l ->
  Forall (fun l => 1 <= len l <= 255 /\ Forall label_char l) after ->
  len (pre ++ (wire_labels (before ++ l :: after) ++ [0]) ++ rest) <= 32767 ->
  hostname_to_qname (dotted (before ++ l :: after)) =
    Ok (Some (wire_labels (before ++ l :: after) ++ [0])) /\
  extract_question (pre ++ (wire_labels (before ++ l :: after) ++ [0]) ++ rest)
    (len pre) = Fault.
Proof.
  intros Hb Hl Hlc Ha Hlen. split.
  - apply hostname_to_qname_labels.
    + now destruct before.
    + apply Forall_app. split.
      * revert Hb. apply Forall_weaken. intros x [H1 H2]. split; [lia|exact H2].
      * constructor; [split; [lia|assumption]|assumption].
    + rewrite !len_app in Hlen. change (len [0]) with 1 in Hlen.
      pose proof (len_nonneg pre). pose proof (len_nonneg rest). lia.
  - rewrite wire_labels_app in *. cbn [wire_labels] in *.
    rewrite <- !app_assoc in *. cbn [app] in *.
    apply extract_question_top_bit; [|assumption|assumption].
    revert Hb. apply Forall_weaken. intros x [H1 H2].
    split; [lia|now apply label_chars_nul_free].
Qed.

Lemma long_label_not_decodable_witness :
  hostname_to_qname (dotted ([bytes_of_string "www"] ++ repeat 97 128 :: [])) =
    Ok (Some (wire_labels ([bytes_of_string "www"] ++ repeat 97 128 :: []) ++ [0])) /\
  extract_question
    (query_header_wire ++
     (wire_labels ([bytes_of_string "www"] ++ repeat 97 128 :: []) ++ [0]) ++
     [0; 1; 0; 1]) (len query_header_wire) = Fault.
Proof.
  apply (long_label_not_decodable [bytes_of_string "www"] [] (repeat 97 128)
           query_header_wire [0; 1; 0; 1]).
  - repeat constructor; cbn; lia.
  - split; apply Z.leb_le; reflexivity.
  - apply Forall_forall. intros c Hc. apply repeat_spec in Hc. subst c.
    unfold label_char. lia.
  - constructor.
  - apply Z.leb_le. reflexivity.
Defined.

(** ** A datagram with no question *)

Lemma skipn_zeros (k n : nat) : skipn k (repeat 0 n) = repeat 0 (n - k).
Proof.
  revert n. induction k as [|k IH]; intros n.
  - now rewrite Nat.sub_0_r.
  - destruct n as [|n]; [reflexivity|]. cbn [repeat skipn Nat.sub]. apply IH.
Qed.

(** X18.  A datagram of twelve bytes or fewer, the empty one included, is not
    parsed: the receive buffer holds zeros behind it, so [main] finds the
    terminator where the question name should start and decodes the root
    name, which writes through the NULL that [malloc] returned. *)
Theorem short_datagram_not_parsed (datagram : list Z) :
  len datagram <= 12 -> parse_response (receive datagram) = Fault.
Proof.
  intros Hd. pose proof (len_nonneg datagram) as H0.
  pose proof (receive_len datagram) as Hlen. unfold BUFFER_SIZE in Hlen.
  unfold parse_response.
  destruct (load_header_ok (receive datagram) 0) as (h0 & ->); [lia|lia|].
  cbn [bind]. unfold store_header.
  rewrite store_bytes_front by (change (len (header_bytes _)) with 12; lia).
  cbn [bind]. change (Z.to_nat (len (header_bytes (flip_dns_header h0)))) with 12%nat.
  assert (Hz : skipn 12 (receive datagram) = 0 :: repeat 0 2035).
  { rewrite receive_short by (unfold BUFFER_SIZE; lia).
    rewrite skipn_app, skipn_all2 by (unfold len in *; lia).
    cbn [app]. rewrite skipn_zeros. unfold BUFFER_SIZE.
    replace (Z.to_nat (2048 - len datagram) - (12 - length datagram))%nat
      with 2036%nat by (unfold len in *; lia).
    reflexivity. }
  rewrite Hz.
  rewrite extract_question_root; [reflexivity|].
  now apply load_byte_at.
Qed.

Lemma short_datagram_not_parsed_witness : parse_response (receive []) = Fault.
Proof.
  apply (short_datagram_not_parsed []). apply Z.leb_le. reflexivity.
Defined.
